(** * shopify-scraper: the scrape API route, embedded in Rocq

    The route ([handler] and its five collectors [fetchStoreInfo],
    [fetchProducts], [fetchCollections], [fetchBlogs], [fetchArticles]) is
    translated function by function.  What the route takes from its
    environment is kept abstract: the network behind [axios.get] is a
    state-passing oracle and the HTML parser behind [cheerio.load] is a
    function from text to a DOM tree.  What the route computes itself
    (string surgery, regular-expression searches, selector queries on the
    parsed tree, object updates, loops, try/catch) is executable.

    Conventions.  A thrown exception is a value: a computation returns
    [Ok a] or [Throw e].  [console.error] only logs and is left out, but
    the template literals of its arguments are evaluated where they can
    throw.  Strings are compared code unit by code unit, attribute values
    exactly.  The order of the properties of an object, which JSON output
    shows and nothing in the route reads, is not kept. *)

From Stdlib Require Import Ascii String DecimalString ZArith Lia.
From stdpp Require Import gmap strings list fin_maps sorting.

Set Warnings "-register-all".
Local Open Scope Z_scope.
Local Open Scope nat_scope.

(** ** JavaScript strings

    A string is a sequence of UTF-16 code units; the model keeps the code
    units 0..255, one [ascii] each. *)

Module Js.

Definition dquote : ascii := "034"%char.
Definition squote : ascii := "039"%char.

Definition code (c : ascii) : nat := nat_of_ascii c.

Definition between (lo hi : nat) (c : ascii) : bool :=
  (lo <=? code c) && (code c <=? hi).

(** WhiteSpace and LineTerminator code units: what [trim] strips and what
    the class [\s] accepts (TAB, LF, VT, FF, CR, SP, NBSP). *)
Definition is_space (c : ascii) : bool :=
  between 9 13 c || (code c =? 32) || (code c =? 160).

Definition is_digit (c : ascii) : bool := between 48 57 c.
Definition is_upper (c : ascii) : bool := between 65 90 c.
Definition is_lower (c : ascii) : bool := between 97 122 c.

(** The class [\w], which decides the word boundary [\b]. *)
Definition is_word (c : ascii) : bool :=
  is_upper c || is_lower c || is_digit c || (code c =? 95).

(** [s.startsWith(p)] *)
Fixpoint startsWith (s p : string) : bool :=
  match p, s with
  | EmptyString, _ => true
  | String _ _, EmptyString => false
  | String a p', String b s' => Ascii.eqb a b && startsWith s' p'
  end.

(** [s.includes(p)] *)
Fixpoint includes (s p : string) : bool :=
  startsWith s p ||
  match s with
  | EmptyString => false
  | String _ s' => includes s' p
  end.

(** [s.indexOf(p)], [-1] when [p] does not occur. *)
Fixpoint indexOf_from (i : nat) (s p : string) : Z :=
  if startsWith s p then Z.of_nat i
  else match s with
       | EmptyString => (-1)%Z
       | String _ s' => indexOf_from (S i) s' p
       end.

Definition indexOf (s p : string) : Z := indexOf_from 0 s p.

Fixpoint first_n (n : nat) (s : string) : string :=
  match n, s with
  | S n', String c s' => String c (first_n n' s')
  | _, _ => EmptyString
  end.

Fixpoint skip_n (n : nat) (s : string) : string :=
  match n, s with
  | S n', String _ s' => skip_n n' s'
  | _, _ => s
  end.

(** [s.substring(a, b)]: both ends are clamped to [0, s.length] and
    swapped when they come in the wrong order. *)
Definition substring (s : string) (a b : Z) : string :=
  let len := Z.of_nat (String.length s) in
  let a' := Z.max 0 (Z.min a len) in
  let b' := Z.max 0 (Z.min b len) in
  let lo := Z.to_nat (Z.min a' b') in
  let hi := Z.to_nat (Z.max a' b') in
  first_n (hi - lo) (skip_n lo s).

Fixpoint trimStart (s : string) : string :=
  match s with
  | String c s' => if is_space c then trimStart s' else s
  | EmptyString => EmptyString
  end.

Fixpoint trimEnd (s : string) : string :=
  match s with
  | EmptyString => EmptyString
  | String c s' =>
      match trimEnd s' with
      | EmptyString => if is_space c then EmptyString else String c EmptyString
      | t => String c t
      end
  end.

(** [s.trim()] *)
Definition trim (s : string) : string := trimEnd (trimStart s).

(** [s.split(sep)] for a non-empty separator.  [skip] counts the code
    units of a separator that was just recognised and is being stepped
    over; [cur] is the piece under construction. *)
Fixpoint split_go (sep : string) (skip : nat) (cur s : string) : list string :=
  match s with
  | EmptyString => [cur]
  | String c s' =>
      match skip with
      | S k => split_go sep k cur s'
      | O =>
          if startsWith s sep
          then cur :: split_go sep (String.length sep - 1) "" s'
          else split_go sep 0 (cur +:+ String c "") s'
      end
  end.

Definition split (s sep : string) : list string := split_go sep 0 "" s.

(** The longest prefix of code units satisfying [f], and what follows
    it. *)
Fixpoint take_while (f : ascii -> bool) (s : string) : string :=
  match s with
  | String c s' => if f c then String c (take_while f s') else EmptyString
  | EmptyString => EmptyString
  end.

Fixpoint drop_while (f : ascii -> bool) (s : string) : string :=
  match s with
  | String c s' => if f c then drop_while f s' else s
  | EmptyString => EmptyString
  end.



(** Template-literal rendering of a loop index. *)
Definition decimal (n : nat) : string := NilEmpty.string_of_uint (Nat.to_uint n).

(** Truthiness of a string: [""] is the only falsy one. *)
Definition nonempty (s : string) : bool :=
  match s with EmptyString => false | String _ _ => true end.

End Js.

(** ** Regular expressions

    The searches of the route are non-global [String.prototype.match]
    calls, of which only the matched text [m[0]] is read.  The matcher is
    the usual backtracking one in continuation-passing style: alternatives
    are tried left to right, quantifiers are greedy, and an iteration of a
    star that consumes nothing is rejected. *)

Module Regex.

Inductive regex : Type :=
| Eps
| Chr (p : ascii -> bool)
| Seq (r1 r2 : regex)
| Alt (r1 r2 : regex)
| Star (r : regex)
| WordB.

Definition word_before (prev : option ascii) : bool :=
  match prev with Some c => Js.is_word c | None => false end.

Definition word_after (s : string) : bool :=
  match s with String c _ => Js.is_word c | EmptyString => false end.

(** The iterations of a star: [step] matches the starred expression
    once.  Each iteration consumes at least one code unit, so [fuel], the
    length of the text at the start, is never exhausted before the text
    is. *)
Fixpoint star_loop
    (step : option ascii -> string -> (option ascii -> string -> option string) -> option string)
    (k : option ascii -> string -> option string)
    (fuel : nat) (prev : option ascii) (s : string) : option string :=
  match fuel with
  | O => k prev s
  | S fuel' =>
      match step prev s (fun prev' s' =>
              if String.length s' <? String.length s
              then star_loop step k fuel' prev' s' else None) with
      | Some rest => Some rest
      | None => k prev s
      end
  end.

(** [run r prev s k]: match [r] at the front of [s], [prev] being the code
    unit just before it, and hand what is left to [k]. *)
Fixpoint run (r : regex) (prev : option ascii) (s : string)
    (k : option ascii -> string -> option string) {struct r} : option string :=
  match r with
  | Eps => k prev s
  | Chr p =>
      match s with
      | String c s' => if p c then k (Some c) s' else None
      | EmptyString => None
      end
  | Seq r1 r2 => run r1 prev s (fun prev' s' => run r2 prev' s' k)
  | Alt r1 r2 =>
      match run r1 prev s k with
      | Some rest => Some rest
      | None => run r2 prev s k
      end
  | Star r1 => star_loop (run r1) k (String.length s) prev s
  | WordB => if xorb (word_before prev) (word_after s) then k prev s else None
  end.

(** The text matched at the front of [s], if [r] matches there. *)
Definition match_here (r : regex) (prev : option ascii) (s : string) : option string :=
  match run r prev s (fun _ rest => Some rest) with
  | Some rest => Some (Js.first_n (String.length s - String.length rest) s)
  | None => None
  end.

(** Leftmost match: every start position in turn, the end of the text
    included. *)
Fixpoint search (r : regex) (prev : option ascii) (s : string) : option string :=
  match match_here r prev s with
  | Some m => Some m
  | None =>
      match s with
      | EmptyString => None
      | String c s' => search r (Some c) s'
      end
  end.

(** [s.match(r)], reduced to [m[0]]; [None] is the [null] of no match. *)
Definition first_match (s : string) (r : regex) : option string := search r None s.

Fixpoint lit (s : string) : regex :=
  match s with
  | EmptyString => Eps
  | String c s' => Seq (Chr (Ascii.eqb c)) (lit s')
  end.

Definition opt (r : regex) : regex := Alt r Eps.
Definition plus (r : regex) : regex := Seq r (Star r).

(** [r{n}] *)
Fixpoint times (n : nat) (r : regex) : regex :=
  match n with
  | O => Eps
  | S n' => Seq r (times n' r)
  end.

(** [r{0,n}], greedy *)
Fixpoint upto (n : nat) (r : regex) : regex :=
  match n with
  | O => Eps
  | S n' => opt (Seq r (upto n' r))
  end.

(** [r{n,m}] for [n <= m] *)
Definition range (n m : nat) (r : regex) : regex := Seq (times n r) (upto (m - n) r).

(** [r{n,}] *)
Definition at_least (n : nat) (r : regex) : regex := Seq (times n r) (Star r).

Fixpoint among (cs : string) (c : ascii) : bool :=
  match cs with
  | EmptyString => false
  | String d cs' => Ascii.eqb d c || among cs' c
  end.

Definition alnum (c : ascii) : bool := Js.is_upper c || Js.is_lower c || Js.is_digit c.

(** The negated class of the social-link patterns: any code unit but a
    double quote, a single quote or white space. *)
Definition not_delim (c : ascii) : bool :=
  negb (Ascii.eqb c Js.dquote || Ascii.eqb c Js.squote || Js.is_space c).

(** The class of one white-space code unit or a dash. *)
Definition space_or_dash (c : ascii) : bool := Js.is_space c || Ascii.eqb c "-".

End Regex.

(** ** Exceptions and fallible results *)

Inductive exn : Type :=
| Error (message : string)   (* raised by a library: axios, cheerio *)
| TypeError.                 (* raised by the language itself *)

Inductive result (A : Type) : Type :=
| Ok (a : A)
| Throw (e : exn).
Arguments Ok {A} a.
Arguments Throw {A} e.

Definition rbind {A B : Type} (m : result A) (k : A -> result B) : result B :=
  match m with
  | Ok a => k a
  | Throw e => Throw e
  end.

Notation "'let?' x ':=' m 'in' k" := (rbind m (fun x => k))
  (at level 10, x name, m at level 100, k at level 200).

(** ** JavaScript values

    The values that reach the route come out of [JSON.parse], plus
    [undefined] for a property that is not there.  A number is kept as its
    decimal rendering, which is all the route can observe of it.  An object
    is a finite map from property names to values. *)

Inductive value : Type :=
| VUndef
| VNull
| VBool (b : bool)
| VNum (repr : string)
| VStr (s : string)
| VArr (xs : list value)
| VObj (props : gmap string value).

(** ToBoolean *)
Definition truthy (v : value) : bool :=
  match v with
  | VUndef | VNull => false
  | VBool b => b
  | VNum r => negb (String.eqb r "0")
  | VStr s => Js.nonempty s
  | VArr _ | VObj _ => true
  end.

(** ToString, as a template literal applies it.  An array joins its
    elements with commas, [null] and [undefined] elements rendering as
    nothing.  A plain object renders through [Object.prototype.toString]
    unless an own [toString] property, which parsed data cannot make
    callable, shadows it: then no conversion is left and the literal
    throws. *)
Fixpoint to_string (v : value) : result string :=
  match v with
  | VUndef => Ok "undefined"
  | VNull => Ok "null"
  | VBool true => Ok "true"
  | VBool false => Ok "false"
  | VNum r => Ok r
  | VStr s => Ok s
  | VArr xs =>
      (fix join (xs : list value) : result string :=
         match xs with
         | [] => Ok ""
         | x :: rest =>
             let? sx := match x with
                        | VUndef | VNull => Ok ""
                        | _ => to_string x
                        end in
             match rest with
             | [] => Ok sx
             | _ :: _ => let? sr := join rest in Ok (sx +:+ "," +:+ sr)
             end
         end) xs
  | VObj o =>
      match o !! "toString" with
      | Some _ => Throw TypeError
      | None => Ok "[object Object]"
      end
  end.

(** A template literal with one hole followed by text. *)
Definition tpl (v : value) (suffix : string) : result string :=
  let? s := to_string v in Ok (s +:+ suffix).

(** Property read [v.k], for the property names the route reads
    ([products], [collections], [collection], [blogs], [articles],
    [handle], [content], [storeUrl]): none of them is defined on a
    built-in prototype, so only an own property of an object answers. *)
Definition get (v : value) (k : string) : result value :=
  match v with
  | VUndef | VNull => Throw TypeError
  | VObj o => Ok (default VUndef (o !! k))
  | _ => Ok VUndef
  end.

(** Property write [v.k = x] in strict mode (the route is an ES module).
    A primitive cannot take a property.  An array takes it as a named
    property beside its elements, where JSON output does not show it. *)
Definition set (v : value) (k : string) (x : value) : result value :=
  match v with
  | VObj o => Ok (VObj (<[k := x]> o))
  | VArr xs => Ok (VArr xs)
  | _ => Throw TypeError
  end.

(** [delete v.k] on an object. *)
Definition delete_prop (v : value) (k : string) : value :=
  match v with
  | VObj o => VObj (delete k o)
  | _ => v
  end.

(** What [for (const x of v)] and the spread [...v] enumerate. *)
Definition iterate (v : value) : result (list value) :=
  match v with
  | VArr xs => Ok xs
  | VStr s => Ok ((fun c => VStr (String c "")) <$> list_ascii_of_string s)
  | _ => Throw TypeError
  end.

Definition indexed (xs : list value) : gmap string value :=
  list_to_map (imap (fun i x => (Js.decimal i, x)) xs).

(** The own enumerable properties [Object.assign] copies from a source. *)
Definition own_props (v : value) : gmap string value :=
  match v with
  | VObj o => o
  | VArr xs => indexed xs
  | VStr s => indexed ((fun c => VStr (String c "")) <$> list_ascii_of_string s)
  | _ => ∅
  end.

(** [Object.assign(target, source)] as seen through [target].  Every own
    property of the source is written onto the target, the source winning.
    The one name that does not land as a property is [__proto__] on a
    target without such an own property: the write reaches the inherited
    accessor.  A primitive target is boxed and the box thrown away; an
    array target is left as it is (the route only merges records). *)
Definition object_assign (target source : value) : value :=
  match target with
  | VObj t =>
      let s := own_props source in
      let s' := match t !! "__proto__" with
                | Some _ => s
                | None => delete "__proto__" s
                end in
      VObj (s' ∪ t)
  | _ => target
  end.

(** [v === s] for a string [s]. *)
Definition is_string (v : value) (s : string) : bool :=
  match v with
  | VStr s' => String.eqb s' s
  | _ => false
  end.

(** ** Parsed documents and selector queries

    [cheerio.load] yields a tree of elements and text.  The queries of the
    route use tag names, attribute tests, one class name, the descendant
    combinator and comma lists; results come in document order. *)

Module Dom.

Inductive node : Type :=
| Text (s : string)
| Elem (tag : string) (attrs : list (string * string)) (kids : list node).

(** [.text()] of one node: the text of all its descendants. *)
Fixpoint text (n : node) : string :=
  match n with
  | Text s => s
  | Elem _ _ kids =>
      (fix go (ks : list node) : string :=
         match ks with
         | [] => ""
         | k :: ks' => text k +:+ go ks'
         end) kids
  end.

Fixpoint assoc (name : string) (attrs : list (string * string)) : option string :=
  match attrs with
  | [] => None
  | (k, v) :: rest => if String.eqb k name then Some v else assoc name rest
  end.

Definition attr_of (n : node) (name : string) : option string :=
  match n with
  | Elem _ attrs _ => assoc name attrs
  | Text _ => None
  end.

Definition tag_of (n : node) : option string :=
  match n with
  | Elem t _ _ => Some t
  | Text _ => None
  end.

(** Every element with the chain of its ancestors, in document order. *)
Fixpoint descend (ancestors : list node) (n : node) : list (list node * node) :=
  match n with
  | Text _ => []
  | Elem _ _ kids =>
      (ancestors, n) ::
      (fix go (ks : list node) : list (list node * node) :=
         match ks with
         | [] => []
         | k :: ks' => descend (n :: ancestors) k ++ go ks'
         end) kids
  end.

Definition document := list node.

Definition all_elements (d : document) : list (list node * node) :=
  d ≫= descend [].

(** White-space separated tokens of a [class] attribute. *)
Fixpoint tokens_go (cur : string) (s : string) : list string :=
  match s with
  | EmptyString => if Js.nonempty cur then [cur] else []
  | String c s' =>
      if Js.is_space c
      then (if Js.nonempty cur then [cur] else []) ++ tokens_go "" s'
      else tokens_go (cur +:+ String c "") s'
  end.

Definition tokens (s : string) : list string := tokens_go "" s.

Inductive simple : Type :=
| Tag (t : string)                (* t *)
| AttrIs (a v : string)           (* [a=v] *)
| AttrHas (a v : string)          (* [a*=v] *)
| Class (c : string).             (* .c *)

Definition holds (n : node) (s : simple) : bool :=
  match s with
  | Tag t => match tag_of n with Some t' => String.eqb t' t | None => false end
  | AttrIs a v => match attr_of n a with Some v' => String.eqb v' v | None => false end
  | AttrHas a v => match attr_of n a with Some v' => Js.includes v' v | None => false end
  | Class c =>
      match attr_of n "class" with
      | Some v => existsb (String.eqb c) (tokens v)
      | None => false
      end
  end.

(** A compound selector is a conjunction of simple ones. *)
Definition compound := list simple.

Definition fits (n : node) (c : compound) : bool := forallb (holds n) c.

(** [within subject]: one compound; [inside anc subject]: the compound
    [subject] under an ancestor fitting [anc]. *)
Inductive complex : Type :=
| Plain (subject : compound)
| Inside (anc subject : compound).

Definition selects (c : complex) (e : list node * node) : bool :=
  match c with
  | Plain subject => fits e.2 subject
  | Inside anc subject => fits e.2 subject && existsb (fun a => fits a anc) e.1
  end.

(** A selector is a comma list of complex selectors. *)
Definition selector := list complex.

(** [$(sel)]: the matched set. *)
Definition select (d : document) (sel : selector) : list node :=
  snd <$> filter (fun e => existsb (fun c => selects c e) sel = true) (all_elements d).

(** [.text()] of a matched set. *)
Definition text_of (ns : list node) : string :=
  foldr (fun n acc => text n +:+ acc) "" ns.

(** [.attr(name)] of a matched set: that of its first element. *)
Definition attr (ns : list node) (name : string) : option string :=
  match ns with
  | [] => None
  | n :: _ => attr_of n name
  end.

(** [.first()] *)
Definition first (ns : list node) : list node := take 1 ns.

End Dom.

(** ** Constants of the route *)

Import Js Regex.

(** The patterns of [fetchStoreInfo], in source order. *)

(** Two capitals, white space, five digits and an optional dash with four
    more; or the six alternating letters and digits of a Canadian code. *)
Definition addressRegex : regex :=
  Alt (Seq (times 2 (Chr is_upper))
        (Seq (plus (Chr is_space))
          (Seq (times 5 (Chr is_digit))
               (opt (Seq (lit "-") (times 4 (Chr is_digit)))))))
      (Seq (Chr is_upper) (Seq (Chr is_digit) (Seq (Chr is_upper)
        (Seq (Star (Chr is_space))
          (Seq (Chr is_digit) (Seq (Chr is_upper) (Chr is_digit))))))).

Definition emailRegex : regex :=
  Seq WordB
   (Seq (plus (Chr (fun c => alnum c || among "._%+-" c)))
    (Seq (lit "@")
     (Seq (plus (Chr (fun c => alnum c || among ".-" c)))
      (Seq (lit ".")
       (Seq (at_least 2 (Chr (fun c => is_upper c || among "|" c || is_lower c)))
            WordB))))).

Definition phoneRegex : regex :=
  let digits := range 1 4 (Chr is_digit) in
  let sep := opt (Chr space_or_dash) in
  Seq (opt (lit "+"))
   (Seq digits
    (Seq sep
     (Seq (opt (Seq (lit "(") (Seq digits (Seq (lit ")") sep))))
      (Seq digits (Seq sep (Seq digits (Seq sep digits))))))).

(** A platform domain and path prefix followed by one or more code units
    that are neither quotes nor white space. *)
Definition social (prefix : string) : regex := Seq (lit prefix) (plus (Chr not_delim)).

Definition socialPlatforms : list (string * regex) :=
  [ ("facebook", social "facebook.com/");
    ("instagram", social "instagram.com/");
    ("twitter", social "twitter.com/");
    ("pinterest", social "pinterest.com/");
    ("youtube", social "youtube.com/");
    ("tiktok", social "tiktok.com/@") ].

(** The selectors of the route, in source order. *)
Import Dom.

Definition sel_title : selector := [Plain [Tag "title"]].
Definition sel_site_name : selector := [Plain [Tag "meta"; AttrIs "property" "og:site_name"]].
Definition sel_og_image : selector := [Plain [Tag "meta"; AttrIs "property" "og:image"]].
Definition sel_header_img : selector := [Inside [Tag "header"] [Tag "img"]].
Definition sel_favicon : selector :=
  [Plain [Tag "link"; AttrIs "rel" "shortcut icon"]; Plain [Tag "link"; AttrIs "rel" "icon"]].
Definition sel_footer : selector := [Plain [Tag "footer"]].
Definition sel_address : selector :=
  [Inside [Tag "footer"] [Tag "address"];
   Inside [Tag "footer"] [Class "address"];
   Inside [Tag "footer"] [AttrHas "itemtype" "PostalAddress"]].
Definition sel_collection_links : selector := [Plain [Tag "a"; AttrHas "href" "/collections/"]].
Definition sel_blog_links : selector := [Plain [Tag "a"; AttrHas "href" "/blogs/"]].
Definition sel_p : selector := [Plain [Tag "p"]].

(** ** Data of the route *)

Record store_info : Type := {
  name : string;
  logo : string;
  favicon : string;
  address : string;
  email : string;
  phone : string;
  socialLinks : gmap string string
}.

Record store_data : Type := {
  products : value;
  collections : value;
  blogs : value;
  articles : list value;
  storeInfo : store_info
}.

Record request : Type := {
  method : string;
  body : value
}.

(** What [handler] sends: the status and the JSON payload. *)
Inductive response : Type :=
| MethodNotAllowed                  (* 405, error: Method not allowed *)
| StoreUrlRequired                  (* 400, error: Store URL is required *)
| Scraped (storeData : store_data)  (* 200, the aggregate *)
| ScrapeFailed (details : exn).     (* 500, error: Failed to scrape the store data *)

(** The record [fetchStoreInfo] falls back to. *)
Definition unknown_store : store_info :=
  {| name := "Unknown Store"; logo := ""; favicon := ""; address := "";
     email := ""; phone := ""; socialLinks := ∅ |}.

(** A link as found, or glued to the store URL when it does not start
    with [http]. *)
Definition absolute (storeUrl : value) (link : string) : result string :=
  if startsWith link "http" then Ok link
  else let? base := to_string storeUrl in Ok (base +:+ link).

(** [data && data.k] *)
Definition and_get (data : value) (k : string) : result value :=
  if truthy data then get data k else Ok data.

(** The social-link loop of [fetchStoreInfo]. *)
Definition social_links (html : string) : gmap string string :=
  foldl (fun links (platform : string * regex) =>
           match first_match html platform.2 with
           | Some url =>
               <[platform.1 := if startsWith url "http" then url else "https://" +:+ url]> links
           | None => links
           end) ∅ socialPlatforms.

(** ** The dashboard

    What the page component does before and after the route runs: the
    request [fetchData] posts and the file name [handleDownload] gives. *)

Module Home.

(** [s.replace(/\/$/, '')]: without the multiline flag the anchor is the
    end of the text, so one final slash goes and nothing else. *)
Fixpoint strip_final_slash (s : string) : string :=
  match s with
  | EmptyString => EmptyString
  | String c EmptyString => if Ascii.eqb c "/" then EmptyString else s
  | String c s' => String c (strip_final_slash s')
  end.

(** The URL [fetchData] puts in the request. *)
Definition normalizedUrl (storeUrl : string) : string :=
  strip_final_slash
    (if startsWith storeUrl "http" then storeUrl else "https://" +:+ storeUrl).

(** [fetchData]: nothing is sent for an empty input; otherwise
    [axios.post('/api/scrape', { storeUrl: normalizedUrl })]. *)
Definition fetchData (storeUrl : string) : option request :=
  if nonempty storeUrl
  then Some {| method := "POST";
               body := VObj {[ "storeUrl" := VStr (normalizedUrl storeUrl) ]} |}
  else None.



End Home.

(** ** Fixtures

    A scripted network and a scripted parser, to run the route on
    concrete stores. *)

Module Fixture.

Import Dom.

(** The world of a scripted store: the requests made so far. *)
Definition Log : Type := list value.

(** A store that answers the listed URLs and refuses every other
    request; each request is logged. *)
Definition serve (pages : list (string * value)) (url : value) (log : Log)
    : Log * result value :=
  (log ++ [url],
   match url with
   | VStr u =>
       match (list_to_map pages : gmap string value) !! u with
       | Some data => Ok data
       | None => Throw (Error "Request failed with status code 404")
       end
   | _ => Throw (Error "Invalid URL")
   end).

(** A parser that knows the listed markup and sees an empty document in
    anything else. *)
Fixpoint parse (docs : list (string * document)) (markup : string) : document :=
  match docs with
  | [] => []
  | (m, d) :: rest => if String.eqb m markup then d else parse rest markup
  end.

Definition no_load (v : value) : result document :=
  Throw (Error "cheerio.load() expects a string").

(** An object literal. *)
Definition record (fields : list (string * value)) : value := VObj (list_to_map fields).

(** An anchor element with one text child. *)
Definition anchor (href label : string) : node :=
  Elem "a" [("href", href)] [Text label].

Definition shop : string := "https://shop.example".

Definition post (storeUrl : string) : request :=
  {| method := "POST"; body := record [("storeUrl", VStr storeUrl)] |}.

Definition not_found : exn := Error "Request failed with status code 404".

(** *** A store with a collections listing

    Three collections; the detail of the second one is missing. *)

Definition shoes : value := record [("handle", VStr "shoes"); ("title", VStr "Shoes")].
Definition hats : value := record [("handle", VStr "hats"); ("title", VStr "Hats")].
Definition bags : value := record [("handle", VStr "bags"); ("title", VStr "Bags")].

Definition shoes_detail : value :=
  record [("title", VStr "All the shoes"); ("products_count", VNum "12")].
Definition bags_detail : value := record [("description", VStr "Bags and totes")].

Definition listing_pages : list (string * value) :=
  [ (shop +:+ "/collections.json", record [("collections", VArr [shoes; hats; bags])]);
    (shop +:+ "/collections/shoes.json", record [("collection", shoes_detail)]);
    (shop +:+ "/collections/bags.json", record [("collection", bags_detail)]) ].

Definition detail_urls : list string :=
  [ shop +:+ "/collections/shoes.json";
    shop +:+ "/collections/hats.json";
    shop +:+ "/collections/bags.json" ].

(** *** A blog with three articles

    The first has a paragraph of more than 200 code units, the second no
    content, the third content without a paragraph. *)

Definition long_text : string :=
  "Hello world, this is a long paragraph exceeding two hundred characters, " +:+
  "written only to be cut: it goes on about shoes, hats and bags, about " +:+
  "shipping and returns, about the weather in the warehouse, and it does " +:+
  "not stop before it has passed the mark.".

Definition long_markup : string := "<p> " +:+ long_text +:+ " </p><p>Second.</p>".
Definition div_markup : string := "<div>Only a division.</div>".

Definition article_docs : list (string * document) :=
  [ (long_markup, [Elem "p" [] [Text (" " +:+ long_text +:+ " ")];
                   Elem "p" [] [Text "Second."]]);
    (div_markup, [Elem "div" [] [Text "Only a division."]]) ].

Definition long_article : gmap string value :=
  list_to_map [("id", VNum "1"); ("title", VStr "Long"); ("content", VStr long_markup)].
Definition bare_article : gmap string value :=
  list_to_map [("id", VNum "2"); ("title", VStr "Bare")].
Definition div_article : gmap string value :=
  list_to_map [("id", VNum "3"); ("title", VStr "Division"); ("content", VStr div_markup)].

Definition news_articles : list value :=
  [VObj long_article; VObj bare_article; VObj div_article].

Definition article_pages : list (string * value) :=
  [ (shop +:+ "/blogs/news/articles.json", record [("articles", VArr news_articles)]) ].

(** *** A store without listings

    Neither collections.json nor blogs.json is served; the collections
    index page and the homepage carry the links. *)

Definition image_link (href : string) : node :=
  Elem "a" [("href", href)] [Elem "img" [("src", "/cdn/tile.png")] []].

Definition collections_markup : string :=
  "<nav><a href='/collections/shoes'><img src='/cdn/tile.png'></a>" +:+
  "<a href='/collections/hats'>Hats</a>" +:+
  "<a href='/collections/shoes/'> Shoes </a>" +:+
  "<a href='/collections/shoes/products/boot'>Boot</a>" +:+
  "<a href='https://shop.example/collections/hats'>All hats</a></nav>".

Definition collections_doc : document :=
  [Elem "nav" []
     [ image_link "/collections/shoes";
       anchor "/collections/hats" "Hats";
       anchor "/collections/shoes/" " Shoes ";
       anchor "/collections/shoes/products/boot" "Boot";
       anchor "https://shop.example/collections/hats" "All hats" ]].

Definition home_markup : string :=
  "<nav><a href='/blogs/news'><img src='/cdn/tile.png'></a>" +:+
  "<a href='/blogs/news/tagged/sale'>Sale</a>" +:+
  "<a href='/blogs/news'>News</a>" +:+
  "<a href='/blogs/news/first-post'>First post</a></nav>".

Definition home_doc : document :=
  [Elem "nav" []
     [ image_link "/blogs/news";
       anchor "/blogs/news/tagged/sale" "Sale";
       anchor "/blogs/news" "News";
       anchor "/blogs/news/first-post" "First post" ]].

Definition scraped_pages : list (string * value) :=
  [ (shop +:+ "/collections", VStr collections_markup); (shop, VStr home_markup) ].

Definition scraped_docs : list (string * document) :=
  [ (collections_markup, collections_doc); (home_markup, home_doc) ].

(** *** A collections index page with handles that begin with all *)

Definition all_markup : string :=
  "<a href='/collections/all'>Everything</a>" +:+
  "<a href='/collections/all-shoes'>All Shoes</a>" +:+
  "<a href='/collections/hats'>Hats</a>".

Definition all_doc : document :=
  [ anchor "/collections/all" "Everything";
    anchor "/collections/all-shoes" "All Shoes";
    anchor "/collections/hats" "Hats" ].

Definition all_pages : list (string * value) := [ (shop +:+ "/collections", VStr all_markup) ].
Definition all_docs : list (string * document) := [ (all_markup, all_doc) ].

(** *** A homepage with one social link *)

Definition social_markup : string :=
  "<a href='https://www.facebook.com/mystore'>Facebook</a>".

Definition social_pages : list (string * value) := [ (shop, VStr social_markup) ].
Definition social_docs : list (string * document) :=
  [ (social_markup, [anchor "https://www.facebook.com/mystore" "Facebook"]) ].

(** *** A store with two blogs *)

Definition news : gmap string value := list_to_map [("handle", VStr "news"); ("title", VStr "News")].
Definition tips : gmap string value := list_to_map [("handle", VStr "tips"); ("title", VStr "Tips")].

Definition hello_markup : string := "<p>Hi</p>".

Definition blog_pages : list (string * value) :=
  [ (shop +:+ "/blogs.json", record [("blogs", VArr [VObj news; VObj tips])]);
    (shop +:+ "/blogs/news/articles.json",
     record [("articles",
              VArr [ record [("id", VNum "1")];
                     record [("id", VNum "2"); ("content", VStr hello_markup)] ])]);
    (shop +:+ "/blogs/tips/articles.json",
     record [("articles", VArr [ record [("id", VNum "3")] ])]) ].

Definition blog_docs : list (string * document) :=
  [ (hello_markup, [Elem "p" [] [Text "Hi"]]) ].

Definition news_list : list value :=
  [ record [("id", VNum "1")]; record [("id", VNum "2"); ("summary", VStr "Hi...")] ].
Definition tips_list : list value := [ record [("id", VNum "3")] ].

(** *** A homepage with a title and a long footer *)

Definition footer_text : string :=
  "Shoes, hats and bags since 1999. Shipping every working day, returns " +:+
  "within thirty days, questions answered by people. Come and see us " +:+
  "at 12 Main Street, Springfield, IL 62704, where the " +:+
  "shop is open from nine to five on every day of the week but Sunday, " +:+
  "and where the coffee is free for whoever tries on a pair of boots.".

Definition front_title : string := "My Store | Shoes and hats".

Definition front_markup : string :=
  "<title>" +:+ front_title +:+ "</title><footer>" +:+ footer_text +:+ "</footer>".

Definition front_doc : document :=
  [ Elem "title" [] [Text front_title]; Elem "footer" [] [Text footer_text] ].

Definition front_pages : list (string * value) := [ (shop, VStr front_markup) ].
Definition front_docs : list (string * document) := [ (front_markup, front_doc) ].

(** *** Listings of odd shapes

    A collections listing with a null entry, a blog list that is an
    object, and a blog list with a number in it. *)

Definition holed_pages : list (string * value) :=
  [ (shop +:+ "/collections.json", record [("collections", VArr [shoes; VNull; bags])]);
    (shop +:+ "/collections/shoes.json", record [("collection", shoes_detail)]);
    (shop +:+ "/collections", VStr all_markup) ].

Definition keyed_blogs : value := record [("news", VObj news)].

Definition keyed_pages : list (string * value) :=
  [ (shop +:+ "/blogs.json", record [("blogs", keyed_blogs)]) ].

Definition mixed_pages : list (string * value) :=
  [ (shop +:+ "/blogs.json", record [("blogs", VArr [VObj news; VNum "7"; VObj tips])]);
    (shop +:+ "/blogs/news/articles.json",
     record [("articles",
              VArr [ record [("id", VNum "1")];
                     record [("id", VNum "2"); ("content", VStr hello_markup)] ])]) ].

(** *** A homepage with contact details *)

Definition contact_markup : string :=
  "<p>Mail hello@shop.example or call +1 555-123-4567</p>".

Definition contact_pages : list (string * value) := [ (shop, VStr contact_markup) ].
Definition contact_docs : list (string * document) :=
  [ (contact_markup, [Elem "p" [] [Text "Mail hello@shop.example or call +1 555-123-4567"]]) ].

End Fixture.
(** ** The route *)

Section Route.

(** The state of everything outside the process. *)
Variable World : Type.

(** [axios.get(url, { headers })] with the fixed browser header: the
    [response.data] of a 2xx answer (parsed when it is JSON, the text
    otherwise), or the error the call throws. *)
Variable axios_get : value -> World -> World * result value.

(** [cheerio.load] on markup text: the parser accepts any text. *)
Variable cheerio_parse : string -> document.

(** [cheerio.load] on a value that is not text, which may throw. *)
Variable cheerio_load_other : value -> result document.

Definition cheerio_load (content : value) : result document :=
  match content with
  | VStr markup => Ok (cheerio_parse markup)
  | _ => cheerio_load_other content
  end.

(** An async computation: it moves the world along and returns or throws. *)
Definition M (A : Type) : Type := World -> World * result A.

Definition ret {A : Type} (a : A) : M A := fun w => (w, Ok a).

Definition lift {A : Type} (r : result A) : M A := fun w => (w, r).

Definition bind {A B : Type} (m : M A) (k : A -> M B) : M B :=
  fun w =>
    match m w with
    | (w', Ok a) => k a w'
    | (w', Throw e) => (w', Throw e)
    end.

(** [try { body } catch (e) { handler }] *)
Definition try_catch {A : Type} (body : M A) (handler : exn -> M A) : M A :=
  fun w =>
    match body w with
    | (w', Ok a) => (w', Ok a)
    | (w', Throw e) => handler e w'
    end.

Notation "'let*' x ':=' m 'in' k" := (bind m (fun x => k))
  (at level 10, x name, m at level 100, k at level 200).

(** [for (const x of xs) { ... }] over an array whose elements the body
    updates in place.  [cells] is the array as it stands, [i] the position
    of the iterator, and [s] the state the body keeps outside the array.
    The elements are the distinct objects [JSON.parse] or [push] created,
    so writing through the loop variable is writing cell [i]. *)
Fixpoint for_of {St : Type} (body : value -> St -> M (value * St))
    (fuel i : nat) (cells : list value) (s : St) : M (list value * St) :=
  match fuel with
  | O => ret (cells, s)
  | S fuel' =>
      match cells !! i with
      | None => ret (cells, s)
      | Some x =>
          let* r := body x s in
          for_of body fuel' (S i) (<[i := r.1]> cells) r.2
      end
  end.

(** The array [v] after a loop left its elements as [cells]; a string
    iterated by code unit is not affected by what happened to the units. *)
Definition with_cells (v : value) (cells : list value) : value :=
  match v with
  | VArr _ => VArr cells
  | _ => v
  end.

(** [.each((i, el) => ...)] over a matched set, the callback updating a
    local array. *)
Fixpoint each (callback : nat -> node -> list value -> result (list value))
    (i : nat) (els : list node) (acc : list value) : result (list value) :=
  match els with
  | [] => Ok acc
  | el :: rest => let? acc' := callback i el acc in each callback (S i) rest acc'
  end.

(** *** fetchStoreInfo *)

Definition extract_store_info (storeUrl : value) (html : string) : result store_info :=
  let doc := cheerio_parse html in
  let title := trim (default "" (head (split (text_of (select doc sel_title)) "|"))) in
  let name :=
    if nonempty title then title
    else default "" (attr (select doc sel_site_name) "content") in
  let og_image := default "" (attr (select doc sel_og_image) "content") in
  let? logo :=
    if nonempty og_image then Ok og_image
    else
      let logoImg := default "" (attr (first (select doc sel_header_img)) "src") in
      if nonempty logoImg then absolute storeUrl logoImg else Ok "" in
  let? favicon :=
    match attr (select doc sel_favicon) "href" with
    | Some faviconLink =>
        if nonempty faviconLink then absolute storeUrl faviconLink else Ok ""
    | None => Ok ""
    end in
  let footerText := text_of (select doc sel_footer) in
  let addressElements := first (select doc sel_address) in
  let address :=
    if 0 <? length addressElements then trim (text_of addressElements)
    else
      match first_match footerText addressRegex with
      | Some potentialAddress =>
          let at_ := indexOf footerText potentialAddress in
          trim (substring footerText
                  (Z.max 0 (at_ - 100))
                  (Z.min (Z.of_nat (String.length footerText)) (at_ + 100)))
      | None => ""
      end in
  let email := default "" (first_match html emailRegex) in
  let phone := default "" (first_match html phoneRegex) in
  Ok {| name := name; logo := logo; favicon := favicon; address := address;
        email := email; phone := phone; socialLinks := social_links html |}.

(** When [response.data] is not text, whatever [cheerio.load] and the
    queries make of it, [html.match] is not a function and throws. *)
Definition fetchStoreInfo (storeUrl : value) : M store_info :=
  try_catch
    (let* data := axios_get storeUrl in
     match data with
     | VStr html => lift (extract_store_info storeUrl html)
     | _ => lift (Throw TypeError)
     end)
    (fun _ => ret unknown_store).

(** *** fetchProducts *)

Definition products_of (storeUrl : value) (path : string) : M value :=
  let* url := lift (tpl storeUrl path) in
  let* data := axios_get (VStr url) in
  let* products := lift (and_get data "products") in
  if truthy products then ret products else ret (VArr []).

Definition fetchProducts (storeUrl : value) : M value :=
  try_catch (products_of storeUrl "/products.json")
    (fun _ =>
       try_catch (products_of storeUrl "/collections/all.json")
         (fun _ => ret (VArr []))).

(** *** fetchCollections *)

Definition detail_url (storeUrl collection : value) : result string :=
  let? base := to_string storeUrl in
  let? handle := get collection "handle" in
  let? slug := to_string handle in
  Ok (base +:+ "/collections/" +:+ slug +:+ ".json").

(** The body of the enrichment loop.  Its [catch] logs a message that
    renders [collection.handle] again. *)
Definition enrich (storeUrl collection : value) : M value :=
  try_catch
    (let* url := lift (detail_url storeUrl collection) in
     let* data := axios_get (VStr url) in
     let* detail := lift (and_get data "collection") in
     if truthy detail then ret (object_assign collection detail) else ret collection)
    (fun _ =>
       let* _ := lift (let? handle := get collection "handle" in to_string handle) in
       ret collection).

(** [href.split('/collections/')[1].split('/')[0]] *)
Definition collection_handle (href : string) : result string :=
  match split href "/collections/" !! 1 with
  | Some rest => Ok (default "" (head (split rest "/")))
  | None => Throw TypeError
  end.

Definition has_handle (handle : string) (c : value) : bool :=
  match get c "handle" with
  | Ok h => is_string h handle
  | Throw _ => false
  end.

Definition entry (id handle title url : string) : value :=
  VObj (<["id" := VStr id]> (<["handle" := VStr handle]>
       (<["title" := VStr title]> (<["url" := VStr url]> ∅)))).

Definition collection_link (storeUrl : value) (i : nat) (el : node)
    (collections : list value) : result (list value) :=
  match attr_of el "href" with
  | Some href =>
      if nonempty href && negb (includes href "/products/")
         && negb (includes href "/collections/all")
      then
        let? handle := collection_handle href in
        if nonempty handle then
          let title := trim (text el) in
          let existingCollection := find (fun c => has_handle handle c) collections in
          if negb (bool_decide (is_Some existingCollection)) && nonempty title then
            let? url := absolute storeUrl href in
            Ok (collections ++ [entry (decimal i) handle title url])
          else Ok collections
        else Ok collections
      else Ok collections
  | None => Ok collections
  end.

Definition scrape_collections (storeUrl : value) : M value :=
  let* url := lift (tpl storeUrl "/collections") in
  let* data := axios_get (VStr url) in
  let* doc := lift (cheerio_load data) in
  let* collections :=
    lift (each (collection_link storeUrl) 0 (select doc sel_collection_links) []) in
  ret (VArr collections).

Definition fetchCollections (storeUrl : value) : M value :=
  try_catch
    (let* url := lift (tpl storeUrl "/collections.json") in
     let* data := axios_get (VStr url) in
     let* collections := lift (and_get data "collections") in
     if truthy collections then
       let* cells := lift (iterate collections) in
       let* done :=
         for_of (fun collection (_ : unit) =>
                   let* merged := enrich storeUrl collection in ret (merged, tt))
                (length cells) 0 cells tt in
       ret (with_cells collections done.1)
     else ret (VArr []))
    (fun _ => try_catch (scrape_collections storeUrl) (fun _ => ret (VArr []))).

(** *** fetchBlogs *)

Definition blog_link (storeUrl : value) (i : nat) (el : node)
    (blogs : list value) : result (list value) :=
  match attr_of el "href" with
  | Some href =>
      if nonempty href && negb (includes href "/blogs/news/tagged/") then
        let parts := split href "/blogs/" in
        match parts !! 1 with
        | Some rest =>
            let handle := default "" (head (split rest "/")) in
            if nonempty handle then
              let title := trim (text el) in
              let existingBlog := find (fun b => has_handle handle b) blogs in
              if negb (bool_decide (is_Some existingBlog)) && nonempty title then
                let? url := absolute storeUrl href in
                Ok (blogs ++ [entry ("blog_" +:+ decimal i) handle title url])
              else Ok blogs
            else Ok blogs
        | None => Ok blogs
        end
      else Ok blogs
  | None => Ok blogs
  end.

Definition scrape_blogs (storeUrl : value) : M value :=
  let* url := lift (tpl storeUrl "") in
  let* data := axios_get (VStr url) in
  let* doc := lift (cheerio_load data) in
  let* blogs := lift (each (blog_link storeUrl) 0 (select doc sel_blog_links) []) in
  ret (VArr blogs).

Definition fetchBlogs (storeUrl : value) : M value :=
  try_catch
    (let* url := lift (tpl storeUrl "/blogs.json") in
     let* data := axios_get (VStr url) in
     let* blogs := lift (and_get data "blogs") in
     if truthy blogs then ret blogs else ret (VArr []))
    (fun _ => try_catch (scrape_blogs storeUrl) (fun _ => ret (VArr []))).

(** *** fetchArticles *)

Definition articles_url (storeUrl blogHandle : value) : result string :=
  let? base := to_string storeUrl in
  let? slug := to_string blogHandle in
  Ok (base +:+ "/blogs/" +:+ slug +:+ "/articles.json").

(** [$('p').first().text().trim().substring(0, 200) + '...'] *)
Definition summary_of (doc : document) : string :=
  substring (trim (text_of (first (select doc sel_p)))) 0 200 +:+ "...".

(** The body of the summary loop. *)
Definition summarize (article : value) : result value :=
  let? content := get article "content" in
  if truthy content then
    let? doc := cheerio_load content in
    let? article' := set article "summary" (VStr (summary_of doc)) in
    Ok (delete_prop article' "content")
  else Ok article.

(** The [catch] logs a message that renders [blogHandle] again. *)
Definition fetchArticles (storeUrl blogHandle : value) : M value :=
  try_catch
    (let* url := lift (articles_url storeUrl blogHandle) in
     let* data := axios_get (VStr url) in
     let* articles := lift (and_get data "articles") in
     if truthy articles then
       let* cells := lift (iterate articles) in
       let* done :=
         for_of (fun article (_ : unit) =>
                   let* article' := lift (summarize article) in ret (article', tt))
                (length cells) 0 cells tt in
       ret (with_cells articles done.1)
     else ret (VArr []))
    (fun _ => let* _ := lift (to_string blogHandle) in ret (VArr [])).

(** *** handler *)

(** The body of the loop over the blogs: [flat] is [storeData.articles]. *)
Definition attach_articles (storeUrl blog : value) (flat : list value)
    : M (value * list value) :=
  let* handle := lift (get blog "handle") in
  let* articles := fetchArticles storeUrl handle in
  let* blog' := lift (set blog "articles" articles) in
  let* spread := lift (iterate articles) in
  ret (blog', flat ++ spread).

(** [storeData.blogs] is assigned the array [blogs] before the loop runs
    and is the same array: what is sent is the array as the loop left
    it. *)
Definition handler (req : request) : M response :=
  if negb (String.eqb (method req) "POST") then ret MethodNotAllowed
  else
    let* storeUrl := lift (get (body req) "storeUrl") in
    if negb (truthy storeUrl) then ret StoreUrlRequired
    else
      try_catch
        (let* storeInfo := fetchStoreInfo storeUrl in
         let* products := fetchProducts storeUrl in
         let* collections := fetchCollections storeUrl in
         let* blogs := fetchBlogs storeUrl in
         let* cells := lift (iterate blogs) in
         let* done := for_of (attach_articles storeUrl) (length cells) 0 cells [] in
         ret (Scraped {| products := products;
                         collections := collections;
                         blogs := with_cells blogs done.1;
                         articles := done.2;
                         storeInfo := storeInfo |}))
        (fun error => ret (ScrapeFailed error)).

(** ** Reference descriptions

    What the statements below compare the route with. *)


(** The requests for a list of URLs, one at a time and in order. *)
Fixpoint fetch_each (urls : list string) (w : World) : World * list (result value) :=
  match urls with
  | [] => (w, [])
  | url :: rest =>
      let (w1, r) := axios_get (VStr url) w in
      let (w2, rs) := fetch_each rest w1 in
      (w2, r :: rs)
  end.

(** A loop body applied to the elements of a list from left to right. *)
Fixpoint traverse {St : Type} (body : value -> St -> M (value * St))
    (xs : list value) (s : St) : M (list value * St) :=
  match xs with
  | [] => ret ([], s)
  | x :: rest =>
      let* r := body x s in
      let* r' := traverse body rest r.2 in
      ret (r.1 :: r'.1, r'.2)
  end.

(** The articles of each blog in turn. *)
Fixpoint articles_per_blog (storeUrl : value) (blogs : list value) : M (list value) :=
  match blogs with
  | [] => ret []
  | blog :: rest =>
      let* handle := lift (get blog "handle") in
      let* articles := fetchArticles storeUrl handle in
      let* others := articles_per_blog storeUrl rest in
      ret (articles :: others)
  end.

(** A collection after the answer [r] to its detail request. *)
Definition merged (collection : value) (r : result value) : value :=
  match r with
  | Ok data =>
      match and_get data "collection" with
      | Ok detail => if truthy detail then object_assign collection detail else collection
      | Throw _ => collection
      end
  | Throw _ => collection
  end.

(** An article record: an object whose content, when it is there and
    truthy, is text. *)
Definition is_article (v : value) : bool :=
  match v with
  | VObj a =>
      match a !! "content" with
      | None | Some (VStr _) => true
      | Some c => negb (truthy c)
      end
  | _ => false
  end.

(** The text of the first paragraph element of a document, empty when
    there is none. *)
Definition first_paragraph (doc : document) : string :=
  match select doc sel_p with
  | [] => ""
  | p :: _ => text p
  end.

(** An article after the summary loop. *)
Definition summarized (article : value) : value :=
  match article with
  | VObj a =>
      match a !! "content" with
      | Some (VStr markup) =>
          if nonempty markup
          then VObj (delete "content"
                       (<["summary" := VStr (summary_of (cheerio_parse markup))]> a))
          else article
      | _ => article
      end
  | _ => article
  end.

(** What a collections-page anchor yields when it passes the guards of the
    scan: its handle and its href. *)
Definition collection_anchor (el : node) : option (string * string) :=
  match attr_of el "href" with
  | Some href =>
      if nonempty href && negb (includes href "/products/")
         && negb (includes href "/collections/all")
      then
        match collection_handle href with
        | Ok handle => if nonempty handle then Some (handle, href) else None
        | Throw _ => None
        end
      else None
  | None => None
  end.

(** The same for a homepage anchor in the scan for blogs. *)
Definition blog_anchor (el : node) : option (string * string) :=
  match attr_of el "href" with
  | Some href =>
      if nonempty href && negb (includes href "/blogs/news/tagged/") then
        match split href "/blogs/" !! 1 with
        | Some rest =>
            let handle := default "" (head (split rest "/")) in
            if nonempty handle then Some (handle, href) else None
        | None => None
        end
      else None
  | None => None
  end.

(** The url of an entry. *)
Definition link (s href : string) : string :=
  if startsWith href "http" then href else s +:+ href.

Definition blog_id (i : nat) : string := "blog_" +:+ decimal i.

(** One anchor of a scan, the entries so far being [acc]: an anchor that
    yields a handle not yet taken and has visible text adds an entry. *)
Definition record_link (mkid : nat -> string) (s : string)
    (anchor_of : node -> option (string * string))
    (i : nat) (el : node) (acc : list value) : list value :=
  match anchor_of el with
  | Some (handle, href) =>
      if negb (existsb (has_handle handle) acc) && nonempty (trim (text el))
      then acc ++ [entry (mkid i) handle (trim (text el)) (link s href)]
      else acc
  | None => acc
  end.

Fixpoint scan (mkid : nat -> string) (s : string)
    (anchor_of : node -> option (string * string))
    (i : nat) (els : list node) (acc : list value) : list value :=
  match els with
  | [] => acc
  | el :: rest => scan mkid s anchor_of (S i) rest (record_link mkid s anchor_of i el acc)
  end.

(** The anchor yields [handle] and has visible text. *)
Definition visible_for (anchor_of : node -> option (string * string))
    (handle : string) (el : node) : bool :=
  match anchor_of el with
  | Some (h, _) => String.eqb h handle && nonempty (trim (text el))
  | None => false
  end.

(** The entries of [out] for each handle, against the anchors scanned:
    the first anchor that yields the handle with visible text, at
    position [j] of the scan, is the one entry for it, with the id made
    from [j]; a handle that no anchor yields with visible text has no
    entry. *)
Definition first_visible_wins (mkid : nat -> string) (s : string)
    (anchor_of : node -> option (string * string))
    (anchors : list node) (out : list value) : Prop :=
  forall handle,
    (forall j el href,
        anchors !! j = Some el ->
        anchor_of el = Some (handle, href) ->
        trim (text el) <> "" ->
        (forall i el' href', i < j -> anchors !! i = Some el' ->
           anchor_of el' = Some (handle, href') -> trim (text el') = "") ->
        List.filter (has_handle handle) out =
        [entry (mkid j) handle (trim (text el)) (link s href)])
    /\ ((forall el href, el ∈ anchors -> anchor_of el = Some (handle, href) ->
           trim (text el) = "") ->
        List.filter (has_handle handle) out = []).

(** The scenario of an anchor without visible text: [first], at position
    [i], is the first anchor that yields the handle and shows no text;
    [later], at position [j], is the first one after it that yields the
    handle and shows text.  Then the one entry for the handle is that of
    [later], with the id made from [j]. *)
Definition empty_anchor_passed_over (mkid : nat -> string) (s : string)
    (anchor_of : node -> option (string * string))
    (anchors : list node) (out : list value) : Prop :=
  forall handle i j first later href_first href_later,
    i < j ->
    anchors !! i = Some first ->
    anchor_of first = Some (handle, href_first) ->
    trim (text first) = "" ->
    (forall k el href, k < i -> anchors !! k = Some el ->
       anchor_of el <> Some (handle, href)) ->
    anchors !! j = Some later ->
    anchor_of later = Some (handle, href_later) ->
    trim (text later) <> "" ->
    (forall k el href, i < k < j -> anchors !! k = Some el ->
       anchor_of el = Some (handle, href) -> trim (text el) = "") ->
    List.filter (has_handle handle) out =
    [entry (mkid j) handle (trim (text later)) (link s href_later)].

(** A value that can take a property: an object or an array. *)
Definition takes_properties (v : value) : bool :=
  match v with
  | VObj _ | VArr _ => true
  | _ => false
  end.

(** The handle of an entry, when it has one that is a string. *)
Definition handle_of (e : value) : option string :=
  match get e "handle" with
  | Ok (VStr h) => Some h
  | _ => None
  end.

(** [out] is made of anchors of the scan, taken in scan order: entry
    by entry there is an anchor, at a position further down than that of
    the entry before, that yields a handle, has visible text and gives
    the entry its id, handle, title and url. *)
Definition from_anchors (mkid : nat -> string) (s : string)
    (anchor_of : node -> option (string * string))
    (anchors : list node) (out : list value) : Prop :=
  exists js : list nat,
    StronglySorted lt js
    /\ Forall2 (fun j e =>
                  exists el h href,
                    anchors !! j = Some el
                    /\ anchor_of el = Some (h, href)
                    /\ trim (text el) <> ""
                    /\ e = entry (mkid j) h (trim (text el)) (link s href))
         js out.

(** The key of each platform and the text its pattern starts with. *)
Definition social_domains : list (string * string) :=
  [ ("facebook", "facebook.com/");
    ("instagram", "instagram.com/");
    ("twitter", "twitter.com/");
    ("pinterest", "pinterest.com/");
    ("youtube", "youtube.com/");
    ("tiktok", "tiktok.com/@") ].

(** *** The texts a pattern matches

    The language of a pattern, read off its syntax and leaving the
    word-boundary assertions out: what a match can be, whatever the
    matcher does to find it. *)

Inductive star_of (L : string -> Prop) : string -> Prop :=
| star_nil : star_of L ""
| star_more (m1 m2 : string) : L m1 -> star_of L m2 -> star_of L (m1 +:+ m2).

Fixpoint lang (r : regex) (m : string) : Prop :=
  match r with
  | Eps | WordB => m = ""
  | Chr p => exists c, m = String c "" /\ p c = true
  | Seq r1 r2 => exists m1 m2, m = m1 +:+ m2 /\ lang r1 m1 /\ lang r2 m2
  | Alt r1 r2 => lang r1 m \/ lang r2 m
  | Star r1 => star_of (lang r1) m
  end.

(** Every class of the pattern lies within [f]. *)
Fixpoint chars_within (f : ascii -> bool) (r : regex) : Prop :=
  match r with
  | Chr p => forall c, p c = true -> f c = true
  | Seq r1 r2 | Alt r1 r2 => chars_within f r1 /\ chars_within f r2
  | Star r1 => chars_within f r1
  | Eps | WordB => True
  end.

(** The least and, without a star, the greatest length of a match. *)
Fixpoint min_length (r : regex) : nat :=
  match r with
  | Chr _ => 1
  | Seq r1 r2 => min_length r1 + min_length r2
  | Alt r1 r2 => Nat.min (min_length r1) (min_length r2)
  | Eps | WordB | Star _ => 0
  end.

Fixpoint max_length (r : regex) : option nat :=
  match r with
  | Chr _ => Some 1
  | Seq r1 r2 =>
      match max_length r1, max_length r2 with
      | Some a, Some b => Some (a + b)
      | _, _ => None
      end
  | Alt r1 r2 =>
      match max_length r1, max_length r2 with
      | Some a, Some b => Some (Nat.max a b)
      | _, _ => None
      end
  | Eps | WordB => Some 0
  | Star _ => None
  end.

Fixpoint all_chars (f : ascii -> bool) (s : string) : bool :=
  match s with
  | EmptyString => true
  | String c s' => f c && all_chars f s'
  end.

(** The code units an e-mail match and a phone match are made of. *)
Definition email_char (c : ascii) : bool := alnum c || among "._%+-@|" c.
Definition phone_char (c : ascii) : bool := is_digit c || is_space c || among "+()-" c.


(** ** The patterns and selectors on small inputs *)

Example email_found :
  first_match "Write to sales@shop.example today" emailRegex = Some "sales@shop.example".
Proof. reflexivity. Qed.

Example phone_found :
  first_match "Call +1 (555) 123-4567 now" phoneRegex = Some "+1 (555) 123-4567".
Proof. reflexivity. Qed.

(** Any run of four digits passes for a phone number. *)
Example phone_in_markup :
  first_match "<img width=1200 height=630>" phoneRegex = Some "1200".
Proof. reflexivity. Qed.

Example zip_found :
  first_match "12 Main St, Springfield, IL 62704-1234, USA" addressRegex
  = Some "IL 62704-1234".
Proof. reflexivity. Qed.

Example postal_code_found :
  first_match "Toronto ON M5V 2T6" addressRegex = Some "M5V 2T6".
Proof. reflexivity. Qed.

Example social_found :
  first_match "see https://www.facebook.com/mystore now" (social "facebook.com/")
  = Some "facebook.com/mystore".
Proof. reflexivity. Qed.

Example title_split : split "My Shop | Home" "|" = ["My Shop "; " Home"].
Proof. reflexivity. Qed.

Example handle_of_nested_href :
  collection_handle "https://shop.example/collections/shoes/products/boot" = Ok "shoes".
Proof. reflexivity. Qed.

Example header_image_selected :
  select [Elem "body" []
            [ Elem "header" [] [Elem "img" [("src", "/logo.png")] []];
              Elem "img" [("src", "/banner.png")] [] ]]
         sel_header_img
  = [Elem "img" [("src", "/logo.png")] []].
Proof. reflexivity. Qed.

Example join_of_array : to_string (VArr [VStr "a"; VNull; VNum "3"]) = Ok "a,,3".
Proof. reflexivity. Qed.

(** ** Running the monad *)

Lemma bind_ok {A B : Type} (m : M A) (k : A -> M B) w w' a :
  m w = (w', Ok a) -> bind m k w = k a w'.
Proof. intros H. unfold bind. by rewrite H. Qed.

Lemma bind_throw {A B : Type} (m : M A) (k : A -> M B) w w' e :
  m w = (w', Throw e) -> bind m k w = (w', Throw e).
Proof. intros H. unfold bind. by rewrite H. Qed.

Lemma try_catch_ok {A : Type} (m : M A) (h : exn -> M A) w w' a :
  m w = (w', Ok a) -> try_catch m h w = (w', Ok a).
Proof. intros H. unfold try_catch. by rewrite H. Qed.

Lemma try_catch_throw {A : Type} (m : M A) (h : exn -> M A) w w' e :
  m w = (w', Throw e) -> try_catch m h w = h e w'.
Proof. intros H. unfold try_catch. by rewrite H. Qed.

Lemma bind_lift_ok {A B : Type} (a : A) (k : A -> M B) w :
  bind (lift (Ok a)) k w = k a w.
Proof. reflexivity. Qed.

Lemma bind_lift_throw {A B : Type} (e : exn) (k : A -> M B) w :
  bind (lift (Throw e)) k w = (w, Throw e).
Proof. reflexivity. Qed.


Lemma append_nil (t : string) : "" +:+ t = t.
Proof. reflexivity. Qed.

Lemma append_cons (c : ascii) (s t : string) : String c s +:+ t = String c (s +:+ t).
Proof. reflexivity. Qed.

Lemma append_empty (s : string) : s +:+ "" = s.
Proof. induction s as [|c s IH]; [done | by rewrite append_cons, IH]. Qed.

Lemma append_assoc (s t u : string) : (s +:+ t) +:+ u = s +:+ (t +:+ u).
Proof. induction s as [|c s IH]; [done | by rewrite !append_cons, IH]. Qed.

Lemma tpl_string (s suffix : string) : tpl (VStr s) suffix = Ok (s +:+ suffix).
Proof. reflexivity. Qed.

(** ** The collectors on a store that does not answer *)


Lemma products_of_throw (s path : string) w w' e :
  axios_get (VStr (s +:+ path)) w = (w', Throw e) ->
  products_of (VStr s) path w = (w', Throw e).
Proof.
  intros E. unfold products_of. rewrite tpl_string, bind_lift_ok. by erewrite bind_throw.
Qed.

Lemma products_of_items (s path : string) w w' data items :
  axios_get (VStr (s +:+ path)) w = (w', Ok data) ->
  get data "products" = Ok (VArr items) ->
  products_of (VStr s) path w = (w', Ok (VArr items)).
Proof.
  intros E G. unfold products_of. rewrite tpl_string, bind_lift_ok.
  erewrite bind_ok; [| exact E].
  destruct data; try discriminate. unfold and_get. simpl truthy. cbv iota.
  rewrite G. reflexivity.
Qed.



Lemma fetchCollections_listing_throw (s : string) w w' e :
  axios_get (VStr (s +:+ "/collections.json")) w = (w', Throw e) ->
  fetchCollections (VStr s) w =
  try_catch (scrape_collections (VStr s)) (fun _ => ret (VArr [])) w'.
Proof.
  intros E. unfold fetchCollections.
  erewrite try_catch_throw; [reflexivity |].
  rewrite tpl_string, bind_lift_ok. by erewrite bind_throw.
Qed.



Lemma fetchBlogs_listing_throw (s : string) w w' e :
  axios_get (VStr (s +:+ "/blogs.json")) w = (w', Throw e) ->
  fetchBlogs (VStr s) w = try_catch (scrape_blogs (VStr s)) (fun _ => ret (VArr [])) w'.
Proof.
  intros E. unfold fetchBlogs.
  erewrite try_catch_throw; [reflexivity |].
  rewrite tpl_string, bind_lift_ok. by erewrite bind_throw.
Qed.


(** ** Loops over arrays *)

Lemma for_of_traverse_from {St : Type} (body : value -> St -> M (value * St))
    (xs pre : list value) (s : St) (w : World) :
  for_of body (length xs) (length pre) (pre ++ xs) s w =
  match traverse body xs s w with
  | (w', Ok r) => (w', Ok (pre ++ r.1, r.2))
  | (w', Throw e) => (w', Throw e)
  end.
Proof.
  revert pre s w. induction xs as [|x rest IH]; intros pre s w.
  - reflexivity.
  - cbn [length for_of traverse].
    rewrite list_lookup_middle by done.
    destruct (body x s w) as [w1 [[y s1]|e]] eqn:E.
    2:{ by rewrite !(bind_throw _ _ _ _ _ E). }
    rewrite !(bind_ok _ _ _ _ _ E). cbn [fst snd].
    replace (<[length pre:=y]> (pre ++ x :: rest)) with ((pre ++ [y]) ++ rest).
    2:{ rewrite <- (Nat.add_0_r (length pre)), insert_app_r. simpl.
        by rewrite <- app_assoc. }
    replace (S (length pre)) with (length (pre ++ [y])).
    2:{ rewrite length_app. simpl. lia. }
    rewrite IH.
    destruct (traverse body rest s1 w1) as [w2 [[ys s2]|e]] eqn:E'.
    2:{ by rewrite (bind_throw _ _ _ _ _ E'). }
    rewrite (bind_ok _ _ _ _ _ E'). unfold ret. cbn [fst snd].
    by rewrite <- app_assoc.
Qed.

Lemma for_of_traverse {St : Type} (body : value -> St -> M (value * St))
    (xs : list value) (s : St) (w : World) :
  for_of body (length xs) 0 xs s w = traverse body xs s w.
Proof.
  pose proof (for_of_traverse_from body xs [] s w) as H. simpl in H. rewrite H.
  destruct (traverse body xs s w) as [w' [[ys s']|e]]; reflexivity.
Qed.

Lemma and_get_ok (data : value) (k : string) : exists v, and_get data k = Ok v.
Proof.
  unfold and_get. destruct (truthy data) eqn:T; [| eauto].
  destruct data; simpl in *; eauto; discriminate.
Qed.

Lemma and_get_field (data : value) (k : string) (v : value) :
  get data k = Ok v -> truthy v = true -> and_get data k = Ok v.
Proof.
  intros G T. unfold and_get. destruct (truthy data) eqn:T'; [done |].
  destruct data; simpl in *; simplify_eq; done.
Qed.

(** ** The summary loop *)

Lemma summarize_article (article : value) :
  is_article article = true -> summarize article = Ok (summarized article).
Proof.
  destruct article as [| | | | | |a]; try discriminate. intros H.
  unfold summarize, summarized. simpl in *.
  destruct (a !! "content") as [c|] eqn:E; simpl; [| done].
  destruct c; simpl in *; try done.
  - by destruct b.
  - apply negb_true_iff in H. by rewrite H.
  - by destruct (nonempty s).
Qed.

Lemma traverse_summarize (arts : list value) (w : World) :
  Forall (fun a => is_article a = true) arts ->
  traverse (fun article (_ : unit) =>
              let* article' := lift (summarize article) in ret (article', tt))
    arts tt w = (w, Ok (summarized <$> arts, tt)).
Proof.
  induction 1 as [|a arts Ha _ IH]; [done |].
  cbn [traverse]. unfold bind, lift, ret in *.
  rewrite (summarize_article a Ha). cbn [fst snd]. by rewrite IH.
Qed.

Lemma first_text (doc : document) :
  text_of (first (select doc sel_p)) = first_paragraph doc.
Proof.
  unfold first_paragraph, first. destruct (select doc sel_p) as [|p ps]; [done |].
  simpl. by rewrite append_empty.
Qed.

Lemma fetchArticles_run (s h : string) (w w' : World) (data : value) (arts : list value) :
  axios_get (VStr (s +:+ "/blogs/" +:+ h +:+ "/articles.json")) w = (w', Ok data) ->
  get data "articles" = Ok (VArr arts) ->
  Forall (fun a => is_article a = true) arts ->
  fetchArticles (VStr s) (VStr h) w = (w', Ok (VArr (summarized <$> arts))).
Proof.
  intros E G F. unfold fetchArticles.
  erewrite try_catch_ok; [reflexivity |].
  change (articles_url (VStr s) (VStr h))
    with (Ok (A:=string) (s +:+ "/blogs/" +:+ h +:+ "/articles.json")).
  rewrite bind_lift_ok, (bind_ok _ _ _ _ _ E).
  rewrite (and_get_field _ _ _ G eq_refl), bind_lift_ok.
  cbn [truthy iterate]. rewrite bind_lift_ok.
  rewrite (bind_ok _ _ w' w' (summarized <$> arts, tt)); [reflexivity |].
  rewrite for_of_traverse. by apply traverse_summarize.
Qed.

(** ** The enrichment loop *)

Lemma detail_url_inv (s : string) (c : value) (url : string) :
  detail_url (VStr s) c = Ok url ->
  exists h slug, get c "handle" = Ok h /\ to_string h = Ok slug.
Proof.
  unfold detail_url. cbn [to_string rbind].
  destruct (get c "handle") as [h|] eqn:Gh; [| done]. cbn [rbind].
  destruct (to_string h) as [slug|] eqn:Th; [| done]. eauto.
Qed.

Lemma enrich_run (s : string) (c : value) (url : string) (w : World) :
  detail_url (VStr s) c = Ok url ->
  enrich (VStr s) c w =
  let (w', r) := axios_get (VStr url) w in (w', Ok (merged c r)).
Proof.
  intros U. destruct (detail_url_inv s c url U) as (h & slug & Gh & Th).
  unfold enrich, try_catch. rewrite U, bind_lift_ok.
  destruct (axios_get (VStr url) w) as [w' [data|e]] eqn:E.
  - rewrite (bind_ok _ _ _ _ _ E). unfold merged.
    destruct (and_get_ok data "collection") as [detail D]. rewrite D, bind_lift_ok.
    by destruct (truthy detail).
  - rewrite (bind_throw _ _ _ _ _ E), Gh. cbn [rbind]. by rewrite Th.
Qed.

Lemma traverse_enrich (s : string) (cs : list value) (urls : list string) (w : World) :
  Forall2 (fun c url => detail_url (VStr s) c = Ok url) cs urls ->
  traverse (fun collection (_ : unit) =>
              let* merged := enrich (VStr s) collection in ret (merged, tt))
    cs tt w =
  let (w', rs) := fetch_each urls w in (w', Ok (zip_with merged cs rs, tt)).
Proof.
  intros F. revert w. induction F as [|c url cs urls U _ IH]; intros w; [done |].
  cbn [traverse fetch_each]. unfold bind at 1 2.
  rewrite (enrich_run s c url w U).
  destruct (axios_get (VStr url) w) as [w1 r]. unfold ret at 1. cbn [fst snd].
  unfold bind. rewrite IH. by destruct (fetch_each urls w1) as [w2 rs].
Qed.

Lemma fetch_each_length (urls : list string) (w w' : World) (rs : list (result value)) :
  fetch_each urls w = (w', rs) -> length rs = length urls.
Proof.
  revert w w' rs. induction urls as [|url urls IH]; intros w w' rs; simpl.
  - by intros [= _ <-].
  - destruct (axios_get (VStr url) w) as [w1 r].
    destruct (fetch_each urls w1) as [w2 rs'] eqn:E.
    intros [= _ <-]. simpl. by rewrite (IH _ _ _ E).
Qed.

Lemma fetchCollections_run (s : string) (w w0 w1 : World) (data : value)
    (cs : list value) (urls : list string) (rs : list (result value)) :
  axios_get (VStr (s +:+ "/collections.json")) w = (w0, Ok data) ->
  get data "collections" = Ok (VArr cs) ->
  Forall2 (fun c url => detail_url (VStr s) c = Ok url) cs urls ->
  fetch_each urls w0 = (w1, rs) ->
  fetchCollections (VStr s) w = (w1, Ok (VArr (zip_with merged cs rs))).
Proof.
  intros E G F R. unfold fetchCollections.
  erewrite try_catch_ok; [reflexivity |].
  rewrite tpl_string, bind_lift_ok, (bind_ok _ _ _ _ _ E).
  rewrite (and_get_field _ _ _ G eq_refl), bind_lift_ok.
  cbn [truthy iterate]. rewrite bind_lift_ok.
  rewrite (bind_ok _ _ w0 w1 (zip_with merged cs rs, tt)); [reflexivity |].
  rewrite for_of_traverse, (traverse_enrich s cs urls w0 F). by rewrite R.
Qed.

(** What [Object.assign] leaves under each property name. *)
Lemma object_assign_lookup (base detail : gmap string value) :
  exists m,
    object_assign (VObj base) (VObj detail) = VObj m
    /\ forall k, k <> "__proto__" ->
         m !! k = match detail !! k with
                  | Some v => Some v
                  | None => base !! k
                  end.
Proof.
  unfold object_assign. cbn [own_props]. eexists. split; [reflexivity |].
  intros k Hk. rewrite lookup_union.
  destruct (base !! "__proto__").
  - destruct (detail !! k), (base !! k); done.
  - rewrite lookup_delete_ne by done. destruct (detail !! k), (base !! k); done.
Qed.

(** ** The loop over the blogs *)

Lemma attach_articles_run (storeUrl : value) (b : gmap string value)
    (l flat : list value) (w wa : World) :
  fetchArticles storeUrl (default VUndef (b !! "handle")) w = (wa, Ok (VArr l)) ->
  attach_articles storeUrl (VObj b) flat w =
  (wa, Ok (VObj (<["articles" := VArr l]> b), flat ++ l)).
Proof.
  intros E. unfold attach_articles. cbn [get].
  rewrite bind_lift_ok, (bind_ok _ _ _ _ _ E).
  cbn [set]. rewrite bind_lift_ok. cbn [iterate]. by rewrite bind_lift_ok.
Qed.

Lemma traverse_attach (storeUrl : value) (bs : list (gmap string value))
    (ls : list (list value)) (flat : list value) (w w' : World) :
  articles_per_blog storeUrl (VObj <$> bs) w = (w', Ok (VArr <$> ls)) ->
  traverse (attach_articles storeUrl) (VObj <$> bs) flat w =
  (w', Ok (zip_with (fun b l => VObj (<["articles" := VArr l]> b)) bs ls,
           flat ++ concat ls)).
Proof.
  revert ls flat w. induction bs as [|b bs IH]; intros ls flat w.
  - cbn. unfold ret. intros [= <- Hl]. destruct ls; [| done].
    by rewrite app_nil_r.
  - cbn [fmap list_fmap articles_per_blog traverse]. intros H.
    cbn [get] in H. rewrite bind_lift_ok in H.
    destruct (fetchArticles storeUrl (default VUndef (b !! "handle")) w)
      as [wa [a|e]] eqn:Ea.
    2:{ by rewrite (bind_throw _ _ _ _ _ Ea) in H. }
    rewrite (bind_ok _ _ _ _ _ Ea) in H.
    destruct (articles_per_blog storeUrl (VObj <$> bs) wa) as [wb [others|e]] eqn:Eo.
    2:{ by rewrite (bind_throw _ _ _ _ _ Eo) in H. }
    rewrite (bind_ok _ _ _ _ _ Eo) in H. unfold ret in H.
    injection H as <- Hl.
    destruct ls as [|l ls]; [done |]. cbn in Hl. injection Hl as -> ->.
    rewrite (bind_ok _ _ _ _ _ (attach_articles_run storeUrl b l flat w wa Ea)).
    cbn [fst snd].
    rewrite (bind_ok _ _ _ _ _ (IH ls (flat ++ l) wa Eo)).
    unfold ret. cbn [fst snd zip_with concat]. by rewrite app_assoc.
Qed.

(** ** The link scans *)

Lemma find_existsb {A : Type} (f : A -> bool) (l : list A) :
  bool_decide (is_Some (find f l)) = existsb f l.
Proof.
  induction l as [|x l IH]; simpl; [done |]. by destruct (f x).
Qed.

Lemma absolute_link (s link_ : string) : absolute (VStr s) link_ = Ok (link s link_).
Proof. unfold absolute, link. by destruct (startsWith link_ "http"). Qed.

Lemma split_go_nonempty (sep : string) (skip : nat) (cur s : string) :
  split_go sep skip cur s <> [].
Proof.
  revert skip cur. induction s as [|c s IH]; intros skip cur; cbn [split_go]; [done |].
  destruct skip; [| apply IH]. destruct (startsWith (String c s) sep); [done | apply IH].
Qed.

Lemma split_go_second (sep : string) (cur s : string) :
  includes s sep = true -> sep <> "" -> exists rest, split_go sep 0 cur s !! 1 = Some rest.
Proof.
  intros Hi Hsep. revert cur Hi. induction s as [|c s IH]; intros cur Hi.
  - simpl in Hi. destruct sep; [done | discriminate].
  - cbn [split_go]. cbn [includes] in Hi.
    destruct (startsWith (String c s) sep) eqn:E.
    + pose proof (split_go_nonempty sep (String.length sep - 1) "" s) as Hne.
      destruct (split_go sep (String.length sep - 1) "" s) as [|x xs]; [done |].
      by exists x.
    + simpl in Hi. by apply IH.
Qed.

Lemma collection_handle_ok (href : string) :
  includes href "/collections/" = true -> exists h, collection_handle href = Ok h.
Proof.
  intros H. unfold collection_handle, split.
  destruct (split_go_second "/collections/" "" href H) as [rest ->]; [done |]. eauto.
Qed.

Lemma collection_link_run (s : string) (i : nat) (el : node) (acc : list value) :
  (forall href, attr_of el "href" = Some href -> includes href "/collections/" = true) ->
  collection_link (VStr s) i el acc = Ok (record_link decimal s collection_anchor i el acc).
Proof.
  intros Hsel. unfold collection_link, record_link, collection_anchor.
  destruct (attr_of el "href") as [href|] eqn:A; [| done].
  destruct (nonempty href && negb (includes href "/products/")
            && negb (includes href "/collections/all")); [| done].
  destruct (collection_handle_ok href (Hsel href eq_refl)) as [h ->]. cbn [rbind].
  destruct (nonempty h); [| done].
  rewrite find_existsb.
  destruct (negb (existsb (has_handle h) acc) && nonempty (trim (text el))); [| done].
  by rewrite absolute_link.
Qed.

Lemma blog_link_run (s : string) (i : nat) (el : node) (acc : list value) :
  blog_link (VStr s) i el acc = Ok (record_link blog_id s blog_anchor i el acc).
Proof.
  unfold blog_link, record_link, blog_anchor.
  destruct (attr_of el "href") as [href|]; [| done].
  destruct (nonempty href && negb (includes href "/blogs/news/tagged/")); [| done].
  destruct (split href "/blogs/" !! 1) as [rest|]; [| done]. cbn zeta.
  destruct (nonempty (default "" (head (split rest "/")))); [| done].
  rewrite find_existsb.
  destruct (negb (existsb (has_handle (default "" (head (split rest "/")))) acc)
            && nonempty (trim (text el))); [| done].
  by rewrite absolute_link.
Qed.

Lemma each_scan (callback : nat -> node -> list value -> result (list value))
    (mkid : nat -> string) (s : string) (anchor_of : node -> option (string * string))
    (els : list node) (i : nat) (acc : list value) :
  Forall (fun el => forall i acc,
            callback i el acc = Ok (record_link mkid s anchor_of i el acc)) els ->
  each callback i els acc = Ok (scan mkid s anchor_of i els acc).
Proof.
  intros F. revert i acc. induction F as [|el els H _ IH]; intros i acc; [done |].
  cbn [each scan]. rewrite H. cbn [rbind]. apply IH.
Qed.

(** What [$('a[href*=...]')] selects has an href with the needle in it. *)
Lemma select_href_has (doc : document) (needle : string) (el : node) :
  el ∈ select doc [Plain [Tag "a"; AttrHas "href" needle]] ->
  exists href, attr_of el "href" = Some href /\ includes href needle = true.
Proof.
  unfold select. intros H. apply list_elem_of_fmap in H as ([anc n] & -> & H).
  apply list_elem_of_filter in H as [H _]. cbn in H.
  rewrite orb_false_r in H. apply andb_true_iff in H as [_ H].
  rewrite andb_true_r in H.
  cbn [snd]. destruct (attr_of n "href") as [href|]; [by exists href | done].
Qed.

Lemma has_handle_entry (h id h' title url : string) :
  has_handle h (entry id h' title url) = String.eqb h' h.
Proof.
  unfold has_handle, entry. cbn [get].
  rewrite lookup_insert_ne by done. by rewrite lookup_insert_eq.
Qed.

Lemma filter_none {A : Type} (f : A -> bool) (l : list A) :
  existsb f l = false -> List.filter f l = [].
Proof.
  induction l as [|x l IH]; [done |]. simpl.
  destruct (f x); [done |]. exact IH.
Qed.

Lemma nonempty_false (t : string) : nonempty t = false <-> t = "".
Proof. by destruct t. Qed.

Section Scan.

Variable mkid : nat -> string.
Variable s : string.
Variable anchor_of : node -> option (string * string).

Lemma record_link_other (h : string) (i : nat) (el : node) (acc : list value) :
  visible_for anchor_of h el = false \/ existsb (has_handle h) acc = true ->
  List.filter (has_handle h) (record_link mkid s anchor_of i el acc)
    = List.filter (has_handle h) acc
  /\ existsb (has_handle h) (record_link mkid s anchor_of i el acc)
    = existsb (has_handle h) acc.
Proof.
  intros H. unfold record_link, visible_for in *.
  destruct (anchor_of el) as [[h' href]|]; [| done].
  destruct (negb (existsb (has_handle h') acc) && nonempty (trim (text el))) eqn:C;
    [| done].
  rewrite List.filter_app, existsb_app. cbn [List.filter existsb].
  rewrite has_handle_entry.
  destruct (String.eqb h' h) eqn:E.
  - apply String.eqb_eq in E as ->. apply andb_true_iff in C as [C1 C2].
    apply negb_true_iff in C1. destruct H as [H|H]; [| congruence].
    rewrite C2 in H. done.
  - by rewrite app_nil_r, !orb_false_r.
Qed.

Lemma scan_keeps (h : string) (els : list node) (i : nat) (acc : list value) :
  existsb (has_handle h) acc = true ->
  List.filter (has_handle h) (scan mkid s anchor_of i els acc)
    = List.filter (has_handle h) acc.
Proof.
  revert i acc. induction els as [|el els IH]; intros i acc H; [done |].
  cbn [scan]. destruct (record_link_other h i el acc (or_intror H)) as [F E].
  rewrite IH; [done | congruence].
Qed.

Lemma scan_none (h : string) (els : list node) (i : nat) (acc : list value) :
  Forall (fun el => visible_for anchor_of h el = false) els ->
  List.filter (has_handle h) (scan mkid s anchor_of i els acc)
    = List.filter (has_handle h) acc.
Proof.
  intros F. revert i acc. induction F as [|el els H _ IH]; intros i acc; [done |].
  cbn [scan]. destruct (record_link_other h i el acc (or_introl H)) as [Fl _].
  by rewrite IH.
Qed.

Lemma scan_first (h href : string) (pre post : list node) (el : node)
    (i : nat) (acc : list value) :
  existsb (has_handle h) acc = false ->
  Forall (fun el => visible_for anchor_of h el = false) pre ->
  anchor_of el = Some (h, href) ->
  nonempty (trim (text el)) = true ->
  List.filter (has_handle h) (scan mkid s anchor_of i (pre ++ el :: post) acc)
    = [entry (mkid (i + length pre)) h (trim (text el)) (link s href)].
Proof.
  intros Hacc F Ha Hv. revert i acc Hacc.
  induction F as [|el' pre H _ IH]; intros i acc Hacc.
  - cbn [app scan length]. rewrite Nat.add_0_r.
    unfold record_link at 1. rewrite Ha, Hacc, Hv. cbn [negb andb].
    rewrite scan_keeps.
    + rewrite List.filter_app, (filter_none _ _ Hacc). cbn [List.filter app].
      by rewrite has_handle_entry, String.eqb_refl.
    + rewrite existsb_app. cbn [existsb].
      by rewrite has_handle_entry, String.eqb_refl, orb_true_r.
  - cbn [app scan length].
    destruct (record_link_other h i el' acc (or_introl H)) as [_ E].
    rewrite IH by congruence. by rewrite Nat.add_succ_r.
Qed.

Lemma scan_first_visible_wins (anchors : list node) :
  first_visible_wins mkid s anchor_of anchors (scan mkid s anchor_of 0 anchors []).
Proof.
  intros h. split.
  - intros j el href Hj Ha Hv Hbefore.
    rewrite <- (take_drop_middle anchors j el Hj).
    pose proof (lookup_lt_Some _ _ _ Hj) as Lj.
    rewrite (scan_first h href); try done.
    + by rewrite length_take, Nat.min_l by lia.
    + apply Forall_forall. intros el' Hel'.
      apply list_elem_of_lookup in Hel' as [i Hi].
      pose proof (lookup_lt_Some _ _ _ Hi) as Li. rewrite length_take in Li.
      rewrite lookup_take_lt in Hi by lia.
      unfold visible_for. destruct (anchor_of el') as [[h' href']|] eqn:Ha'; [| done].
      destruct (String.eqb h' h) eqn:E; [| done].
      apply String.eqb_eq in E as ->.
      rewrite (Hbefore i el' href') by (done || lia). done.
    + by destruct (trim (text el)).
  - intros Hall. rewrite scan_none; [done |].
    apply Forall_forall. intros el Hel.
    unfold visible_for. destruct (anchor_of el) as [[h' href']|] eqn:Ha'; [| done].
    destruct (String.eqb h' h) eqn:E; [| done].
    apply String.eqb_eq in E as ->. by rewrite (Hall el href').
Qed.

End Scan.

Lemma fetchCollections_fallback_run (s : string) (w w0 w1 : World) (e : exn) (html : string) :
  axios_get (VStr (s +:+ "/collections.json")) w = (w0, Throw e) ->
  axios_get (VStr (s +:+ "/collections")) w0 = (w1, Ok (VStr html)) ->
  fetchCollections (VStr s) w =
  (w1, Ok (VArr (scan decimal s collection_anchor 0
                   (select (cheerio_parse html) sel_collection_links) []))).
Proof.
  intros E0 E1. rewrite (fetchCollections_listing_throw _ _ _ _ E0).
  erewrite try_catch_ok; [reflexivity |].
  unfold scrape_collections.
  rewrite tpl_string, bind_lift_ok, (bind_ok _ _ _ _ _ E1).
  cbn [cheerio_load]. rewrite bind_lift_ok.
  rewrite (each_scan _ decimal s collection_anchor); [done |].
  apply Forall_forall. intros el Hel i acc. apply collection_link_run.
  intros href Hh.
  destruct (select_href_has _ _ _ Hel) as (href' & Hh' & Hi). congruence.
Qed.

Lemma fetchBlogs_fallback_run (s : string) (w w0 w1 : World) (e : exn) (html : string) :
  axios_get (VStr (s +:+ "/blogs.json")) w = (w0, Throw e) ->
  axios_get (VStr s) w0 = (w1, Ok (VStr html)) ->
  fetchBlogs (VStr s) w =
  (w1, Ok (VArr (scan blog_id s blog_anchor 0
                   (select (cheerio_parse html) sel_blog_links) []))).
Proof.
  intros E0 E1. rewrite (fetchBlogs_listing_throw _ _ _ _ E0).
  erewrite try_catch_ok; [reflexivity |].
  unfold scrape_blogs.
  rewrite tpl_string, append_empty, bind_lift_ok, (bind_ok _ _ _ _ _ E1).
  cbn [cheerio_load]. rewrite bind_lift_ok.
  rewrite (each_scan _ blog_id s blog_anchor); [done |].
  apply Forall_forall. intros el _ i acc. apply blog_link_run.
Qed.

Lemma scan_empty_anchor_passed_over (mkid : nat -> string) (s : string)
    (anchor_of : node -> option (string * string)) (anchors : list node) :
  empty_anchor_passed_over mkid s anchor_of anchors (scan mkid s anchor_of 0 anchors []).
Proof.
  intros h i j first later href_first href_later Hij Hi Hfirst Hempty Hbefore
    Hj Hlater Hvisible Hbetween.
  apply (proj1 (scan_first_visible_wins mkid s anchor_of anchors h) j later href_later);
    try done.
  intros k el href Hk Hel Ha.
  destruct (lt_eq_lt_dec k i) as [[Hlt | ->] | Hgt].
  - by destruct (Hbefore k el href Hlt Hel).
  - by simplify_eq.
  - eapply Hbetween; [| done..]. lia.
Qed.

(** The catch-all guard is a substring test on the whole href. *)
Lemma collection_link_all_prefix (storeUrl : value) (i : nat) (el : node)
    (acc : list value) (href : string) :
  attr_of el "href" = Some href ->
  includes href "/collections/all" = true ->
  collection_link storeUrl i el acc = Ok acc.
Proof.
  intros A H. unfold collection_link. rewrite A, H.
  by rewrite andb_false_r.
Qed.

(** ** Searching for a social link *)

Lemma length_append (a b : string) :
  String.length (a +:+ b) = String.length a + String.length b.
Proof. induction a as [|c a IH]; [done |]. rewrite append_cons. simpl. by rewrite IH. Qed.

Lemma first_n_append (a b : string) : first_n (String.length a) (a +:+ b) = a.
Proof. induction a as [|c a IH]; [by destruct b |]. rewrite append_cons. simpl. by rewrite IH. Qed.

Lemma startsWith_skip (s p : string) :
  startsWith s p = true -> s = p +:+ skip_n (String.length p) s.
Proof.
  revert s. induction p as [|a p IH]; intros s H; [done |].
  destruct s as [|b s]; [done |]. simpl in H.
  apply andb_true_iff in H as [H1 H2]. apply Ascii.eqb_eq in H1 as ->.
  rewrite append_cons. simpl. by rewrite <- (IH s H2).
Qed.

Lemma take_drop_while (f : ascii -> bool) (s : string) :
  take_while f s +:+ drop_while f s = s.
Proof.
  induction s as [|c s IH]; [done |]. simpl. destruct (f c); [| done].
  by rewrite append_cons, IH.
Qed.

Lemma run_lit (p : string) (prev : option ascii) (s : string)
    (k : option ascii -> string -> option string) :
  (forall a b t, k a t = k b t) ->
  run (lit p) prev s k =
  if startsWith s p then k None (skip_n (String.length p) s) else None.
Proof.
  intros Hk. revert prev s. induction p as [|a p IH]; intros prev s.
  - cbn. destruct s; apply Hk.
  - cbn [lit run]. destruct s as [|b s]; [done |].
    cbn [startsWith String.length skip_n].
    destruct (Ascii.eqb a b); [apply IH | done].
Qed.

Lemma star_chr (f : ascii -> bool) (fuel : nat) (prev : option ascii) (s : string) :
  String.length s <= fuel ->
  star_loop (run (Chr f)) (fun _ rest => Some rest) fuel prev s = Some (drop_while f s).
Proof.
  revert prev s. induction fuel as [|fuel IH]; intros prev s L.
  - destruct s; [done | simpl in L; lia].
  - cbn [star_loop run]. destruct s as [|c s]; [done |].
    cbn [drop_while]. destruct (f c); [| done].
    replace (String.length s <? String.length (String c s)) with true.
    2:{ symmetry. apply Nat.ltb_lt. simpl. lia. }
    rewrite IH; [done |]. simpl in L. lia.
Qed.

Lemma run_plus_chr (f : ascii -> bool) (prev : option ascii) (s : string) :
  run (plus (Chr f)) prev s (fun _ rest => Some rest) =
  match s with
  | String c r => if f c then Some (drop_while f r) else None
  | EmptyString => None
  end.
Proof.
  destruct s as [|c r]; [done |].
  change (run (plus (Chr f)) prev (String c r) (fun _ rest => Some rest))
    with (if f c
          then star_loop (run (Chr f)) (fun _ rest => Some rest)
                 (String.length r) (Some c) r
          else None).
  destruct (f c); [| done]. by apply star_chr.
Qed.

Lemma match_here_social (p : string) (prev : option ascii) (s : string) :
  match_here (social p) prev s =
  if startsWith s p then
    match skip_n (String.length p) s with
    | String c r =>
        if not_delim c then Some (p +:+ String c (take_while not_delim r)) else None
    | EmptyString => None
    end
  else None.
Proof.
  unfold match_here, social.
  change (run (Seq (lit p) (plus (Chr not_delim))) prev s (fun _ rest => Some rest))
    with (run (lit p) prev s
            (fun prev' s' => run (plus (Chr not_delim)) prev' s' (fun _ rest => Some rest))).
  rewrite run_lit by (intros; by rewrite !run_plus_chr).
  destruct (startsWith s p) eqn:E; [| done].
  pose proof (startsWith_skip s p E) as Hs. rewrite run_plus_chr.
  destruct (skip_n (String.length p) s) as [|c r]; [done |].
  destruct (not_delim c); [| done]. f_equal.
  assert (s = (p +:+ String c (take_while not_delim r)) +:+ drop_while not_delim r)
    as Hs' by (by rewrite append_assoc, append_cons, take_drop_while).
  rewrite Hs' at 1 2. rewrite length_append, Nat.add_sub. apply first_n_append.
Qed.

Lemma search_unfold (r : regex) (prev : option ascii) (s : string) :
  search r prev s =
  match match_here r prev s with
  | Some m => Some m
  | None =>
      match s with
      | EmptyString => None
      | String c s' => search r (Some c) s'
      end
  end.
Proof. by destruct s. Qed.






Lemma extract_store_info_social (s html : string) :
  exists info,
    extract_store_info (VStr s) html = Ok info
    /\ socialLinks info = social_links html.
Proof.
  unfold extract_store_info. cbn zeta.
  set (doc := cheerio_parse html).
  assert (forall l, exists x, absolute (VStr s) l = Ok x) as Habs
    by (intros l; rewrite absolute_link; eauto).
  match goal with
  | |- context [rbind ?m _] =>
      assert (exists logo, m = Ok logo) as [logo ->]
  end.
  { destruct (nonempty _); [eauto |]. destruct (nonempty _); eauto. }
  cbn [rbind].
  match goal with
  | |- context [rbind ?m _] =>
      assert (exists favicon, m = Ok favicon) as [favicon ->]
  end.
  { destruct (attr _ _) as [l|]; [| eauto]. destruct (nonempty l); eauto. }
  cbn [rbind]. eexists. split; reflexivity.
Qed.

(** ** The claims *)


(** C2.  When the products.json request fails: if the collections/all.json
    request then answers with a body whose products field is a list of
    items, fetchProducts returns exactly that list; if it fails as well,
    fetchProducts returns the empty list.  In both cases it returns, it
    does not throw. *)
Theorem fetchProducts_fallback (s : string) (w w1 : World) (e : exn) :
  axios_get (VStr (s +:+ "/products.json")) w = (w1, Throw e) ->
  (forall w2 data items,
      axios_get (VStr (s +:+ "/collections/all.json")) w1 = (w2, Ok data) ->
      get data "products" = Ok (VArr items) ->
      fetchProducts (VStr s) w = (w2, Ok (VArr items)))
  /\ (forall w2 e2,
      axios_get (VStr (s +:+ "/collections/all.json")) w1 = (w2, Throw e2) ->
      fetchProducts (VStr s) w = (w2, Ok (VArr []))).
Proof.
  intros E1. split.
  - intros w2 data items E2 G. unfold fetchProducts.
    erewrite try_catch_throw; [| by apply products_of_throw].
    erewrite try_catch_ok; [reflexivity | by eapply products_of_items].
  - intros w2 e2 E2. unfold fetchProducts.
    erewrite try_catch_throw; [| by apply products_of_throw].
    erewrite try_catch_throw; [reflexivity | by apply products_of_throw].
Qed.


(** C9.  An article whose content is non-empty text in which the parser
    finds no paragraph element gets exactly the three-dot marker as its
    summary, and its content field is removed all the same. *)
Theorem fetchArticles_no_paragraph (s h : string) (w w' : World)
    (data : value) (arts : list value) (i : nat) (a : gmap string value)
    (markup : string) :
  axios_get (VStr (s +:+ "/blogs/" +:+ h +:+ "/articles.json")) w = (w', Ok data) ->
  get data "articles" = Ok (VArr arts) ->
  Forall (fun a => is_article a = true) arts ->
  arts !! i = Some (VObj a) ->
  a !! "content" = Some (VStr markup) ->
  markup <> "" ->
  select (cheerio_parse markup) sel_p = [] ->
  exists out a',
    fetchArticles (VStr s) (VStr h) w = (w', Ok (VArr out))
    /\ out !! i = Some (VObj a')
    /\ a' !! "summary" = Some (VStr "...")
    /\ a' !! "content" = None.
Proof.
  intros E G F Hi Hc Hne Hp. exists (summarized <$> arts). eexists.
  split; [by eapply fetchArticles_run |].
  rewrite list_lookup_fmap, Hi. cbn [fmap option_fmap option_map].
  unfold summarized. rewrite Hc.
  replace (nonempty markup) with true by (by destruct markup).
  split; [reflexivity |]. split; [| apply lookup_delete_eq].
  rewrite lookup_delete_ne by done. rewrite lookup_insert_eq.
  unfold summary_of. by rewrite Hp.
Qed.

(** C3.  fetchCollections, on a listing of K collections whose detail
    requests are made one at a time in listing order, exactly one of them
    (the one at position j) failing and each of the others answering with
    a collection record: the result has K entries in listing order; entry
    j is the base record as listed; every other entry is its base record
    with the detail record assigned onto it, so that under each property
    name the detail value stands where the detail has one and the base
    value where it has none (the name __proto__, which an assignment does
    not store as a property, set aside). *)
Theorem fetchCollections_one_detail_fails (s : string) (w w0 w1 : World)
    (data : value) (cs : list value) (urls : list string)
    (rs : list (result value)) (j : nat) (e : exn) :
  axios_get (VStr (s +:+ "/collections.json")) w = (w0, Ok data) ->
  get data "collections" = Ok (VArr cs) ->
  Forall2 (fun c url => detail_url (VStr s) c = Ok url) cs urls ->
  fetch_each urls w0 = (w1, rs) ->
  rs !! j = Some (Throw e) ->
  (forall i, i <> j -> i < length cs ->
     exists d detail, rs !! i = Some (Ok d) /\ get d "collection" = Ok (VObj detail)) ->
  exists out,
    fetchCollections (VStr s) w = (w1, Ok (VArr out))
    /\ length out = length cs
    /\ out !! j = cs !! j
    /\ forall i base d detail,
         i <> j ->
         cs !! i = Some (VObj base) ->
         rs !! i = Some (Ok d) ->
         get d "collection" = Ok (VObj detail) ->
         exists m,
           out !! i = Some (VObj m)
           /\ object_assign (VObj base) (VObj detail) = VObj m
           /\ forall k, k <> "__proto__" ->
                m !! k = match detail !! k with
                         | Some v => Some v
                         | None => base !! k
                         end.
Proof.
  intros E G F R Hj Hrest. exists (zip_with merged cs rs).
  pose proof (fetch_each_length _ _ _ _ R) as Lrs.
  pose proof (Forall2_length _ _ _ F) as Lcs.
  split; [by eapply fetchCollections_run |].
  split; [rewrite length_zip_with; lia |].
  split.
  - rewrite lookup_zip_with, Hj.
    destruct (cs !! j) as [c|] eqn:Hc; [done |].
    apply lookup_ge_None in Hc. apply lookup_lt_Some in Hj. lia.
  - intros i base d detail Hi Hc Hr Hd.
    rewrite lookup_zip_with, Hc, Hr. cbn [mbind option_bind merged].
    rewrite (and_get_field _ _ _ Hd eq_refl). cbn [truthy].
    destruct (object_assign_lookup base detail) as (m & Hm & Hk).
    exists m. by rewrite Hm.
Qed.

(** C8.  In a scrape in which fetchBlogs returns the blog records B1..Bn
    in that order and fetchArticles, called for each blog in turn, returns
    the article list Ai for Bi: the flat articles field of the aggregate
    is A1 ++ ... ++ An, blog Bi is sent with articles = Ai, and every
    article under a blog is also in the flat list. *)
Theorem handler_articles_flattened (req : request) (storeUrl : value)
    (w w1 w2 w3 w4 w5 : World) (info : store_info) (prods colls : value)
    (bs : list (gmap string value)) (ls : list (list value)) :
  method req = "POST" ->
  get (body req) "storeUrl" = Ok storeUrl ->
  truthy storeUrl = true ->
  fetchStoreInfo storeUrl w = (w1, Ok info) ->
  fetchProducts storeUrl w1 = (w2, Ok prods) ->
  fetchCollections storeUrl w2 = (w3, Ok colls) ->
  fetchBlogs storeUrl w3 = (w4, Ok (VArr (VObj <$> bs))) ->
  articles_per_blog storeUrl (VObj <$> bs) w4 = (w5, Ok (VArr <$> ls)) ->
  handler req w =
    (w5, Ok (Scraped {| products := prods;
                        collections := colls;
                        blogs := VArr (zip_with (fun b l => VObj (<["articles" := VArr l]> b))
                                         bs ls);
                        articles := concat ls;
                        storeInfo := info |}))
  /\ (forall i b l,
        bs !! i = Some b -> ls !! i = Some l ->
        zip_with (fun b l => VObj (<["articles" := VArr l]> b)) bs ls !! i
          = Some (VObj (<["articles" := VArr l]> b))
        /\ forall a, In a l -> In a (concat ls)).
Proof.
  intros Hm Hb Ht E1 E2 E3 E4 E5. split.
  - unfold handler. rewrite Hm, String.eqb_refl. cbn [negb].
    rewrite Hb, bind_lift_ok, Ht. cbn [negb].
    erewrite try_catch_ok; [reflexivity |].
    rewrite (bind_ok _ _ _ _ _ E1), (bind_ok _ _ _ _ _ E2).
    rewrite (bind_ok _ _ _ _ _ E3), (bind_ok _ _ _ _ _ E4).
    cbn [iterate]. rewrite bind_lift_ok.
    rewrite (bind_ok _ _ w4 w5
               (zip_with (fun b l => VObj (<["articles" := VArr l]> b)) bs ls,
                concat ls)); [reflexivity |].
    rewrite for_of_traverse. by rewrite (traverse_attach _ _ _ _ _ _ E5).
  - intros i b l Hbi Hli. split.
    + by rewrite lookup_zip_with, Hbi, Hli.
    + intros a Ha. apply in_concat. exists l. split; [| done].
      apply list_elem_of_In. by eapply list_elem_of_lookup_2.
Qed.

(** C5, amended.  In the HTML-fallback path of fetchCollections and of
    fetchBlogs, among the anchors that yield one handle only those with
    non-empty visible text count: the returned list holds exactly one
    entry for the handle when at least one of them has visible text, with
    title and url taken from the first of those in document order, and no
    entry for the handle otherwise. *)
Theorem html_fallback_first_visible_anchor (s s' : string)
    (w w0 w1 w' w0' w1' : World) (e e' : exn) (html html' : string) :
  axios_get (VStr (s +:+ "/collections.json")) w = (w0, Throw e) ->
  axios_get (VStr (s +:+ "/collections")) w0 = (w1, Ok (VStr html)) ->
  axios_get (VStr (s' +:+ "/blogs.json")) w' = (w0', Throw e') ->
  axios_get (VStr s') w0' = (w1', Ok (VStr html')) ->
  (exists out,
     fetchCollections (VStr s) w = (w1, Ok (VArr out))
     /\ first_visible_wins decimal s collection_anchor
          (select (cheerio_parse html) sel_collection_links) out)
  /\ (exists out,
     fetchBlogs (VStr s') w' = (w1', Ok (VArr out))
     /\ first_visible_wins blog_id s' blog_anchor
          (select (cheerio_parse html') sel_blog_links) out).
Proof.
  intros E0 E1 E0' E1'. split; eexists; split.
  - by eapply fetchCollections_fallback_run.
  - apply scan_first_visible_wins.
  - by eapply fetchBlogs_fallback_run.
  - apply scan_first_visible_wins.
Qed.

(** C10.  In the HTML-fallback paths of fetchCollections and fetchBlogs an
    anchor with empty visible text is not recorded and does not take its
    handle: when the first anchor for a handle has empty text and a later
    anchor for the same handle is the first with text, the returned list
    holds one entry for the handle, taken from the later anchor, whose id
    is made from the position of that anchor among all the anchors
    scanned. *)
Theorem html_fallback_empty_anchor_passed_over (s s' : string)
    (w w0 w1 w' w0' w1' : World) (e e' : exn) (html html' : string) :
  axios_get (VStr (s +:+ "/collections.json")) w = (w0, Throw e) ->
  axios_get (VStr (s +:+ "/collections")) w0 = (w1, Ok (VStr html)) ->
  axios_get (VStr (s' +:+ "/blogs.json")) w' = (w0', Throw e') ->
  axios_get (VStr s') w0' = (w1', Ok (VStr html')) ->
  (exists out,
     fetchCollections (VStr s) w = (w1, Ok (VArr out))
     /\ empty_anchor_passed_over decimal s collection_anchor
          (select (cheerio_parse html) sel_collection_links) out)
  /\ (exists out,
     fetchBlogs (VStr s') w' = (w1', Ok (VArr out))
     /\ empty_anchor_passed_over blog_id s' blog_anchor
          (select (cheerio_parse html') sel_blog_links) out).
Proof.
  intros E0 E1 E0' E1'. split; eexists; split.
  - by eapply fetchCollections_fallback_run.
  - apply scan_empty_anchor_passed_over.
  - by eapply fetchBlogs_fallback_run.
  - apply scan_empty_anchor_passed_over.
Qed.


(** ** Further properties of the route *)

Lemma try_catch_total {A : Type} (m : M A) (h : exn -> M A) (w : World) :
  (forall e w0, exists w' a, h e w0 = (w', Ok a)) ->
  exists w' a, try_catch m h w = (w', Ok a).
Proof.
  intros H. unfold try_catch. destruct (m w) as [w1 [a|e]]; [eauto | apply H].
Qed.

Lemma fetchStoreInfo_total (storeUrl : value) (w : World) :
  exists w' info, fetchStoreInfo storeUrl w = (w', Ok info).
Proof. apply try_catch_total. intros e w0. by eexists _, _. Qed.

Lemma fetchProducts_total (storeUrl : value) (w : World) :
  exists w' products, fetchProducts storeUrl w = (w', Ok products).
Proof.
  apply try_catch_total. intros e w0.
  apply try_catch_total. intros e' w0'. by eexists _, _.
Qed.

Lemma fetchCollections_total (storeUrl : value) (w : World) :
  exists w' collections, fetchCollections storeUrl w = (w', Ok collections).
Proof.
  apply try_catch_total. intros e w0.
  apply try_catch_total. intros e' w0'. by eexists _, _.
Qed.

Lemma fetchBlogs_total (storeUrl : value) (w : World) :
  exists w' blogs, fetchBlogs storeUrl w = (w', Ok blogs).
Proof.
  apply try_catch_total. intros e w0.
  apply try_catch_total. intros e' w0'. by eexists _, _.
Qed.

(** X1.  fetchStoreInfo, fetchProducts, fetchCollections and fetchBlogs
    return whatever the store URL value is and whatever the network and
    the parser do: no exception leaves them. *)
Theorem collectors_never_throw (storeUrl : value) (w : World) :
  (exists w' info, fetchStoreInfo storeUrl w = (w', Ok info))
  /\ (exists w' products, fetchProducts storeUrl w = (w', Ok products))
  /\ (exists w' collections, fetchCollections storeUrl w = (w', Ok collections))
  /\ (exists w' blogs, fetchBlogs storeUrl w = (w', Ok blogs)).
Proof.
  split; [apply fetchStoreInfo_total |].
  split; [apply fetchProducts_total |].
  split; [apply fetchCollections_total | apply fetchBlogs_total].
Qed.

Lemma fetchArticles_returns (storeUrl blogHandle : value) (slug : string) (w : World) :
  to_string blogHandle = Ok slug ->
  exists w' articles, fetchArticles storeUrl blogHandle w = (w', Ok articles).
Proof.
  intros T. unfold fetchArticles. apply try_catch_total. intros e w0.
  rewrite T. by eexists _, _.
Qed.

(** X2.  fetchArticles lets an exception out in one case only: when the
    blog handle cannot be rendered in a template literal.  The request
    is then never made, and the error thrown while the catch block
    builds its log message is what the caller gets.  For every other
    handle fetchArticles returns. *)
Theorem fetchArticles_throws_on_handle_only (storeUrl blogHandle : value) (w : World) :
  match to_string blogHandle with
  | Ok _ => exists w' articles, fetchArticles storeUrl blogHandle w = (w', Ok articles)
  | Throw e => fetchArticles storeUrl blogHandle w = (w, Throw e)
  end.
Proof.
  destruct (to_string blogHandle) as [slug|e] eqn:T.
  - by eapply fetchArticles_returns.
  - unfold fetchArticles.
    assert (exists e0, articles_url storeUrl blogHandle = Throw e0) as [e0 U].
    { unfold articles_url. destruct (to_string storeUrl); cbn [rbind]; [| eauto].
      rewrite T. cbn [rbind]. eauto. }
    erewrite try_catch_throw; [| by rewrite U, bind_lift_throw].
    by rewrite T, bind_lift_throw.
Qed.

(** X3.  When the products.json request is answered, fetchProducts makes
    no second request: it returns the products field of the body when
    that is truthy and the empty list otherwise.  A body without products
    does not send it to collections/all.json. *)
Theorem fetchProducts_listing_answered (s : string) (w w1 : World) (data : value) :
  axios_get (VStr (s +:+ "/products.json")) w = (w1, Ok data) ->
  exists products,
    and_get data "products" = Ok products
    /\ fetchProducts (VStr s) w =
       (w1, Ok (if truthy products then products else VArr [])).
Proof.
  intros E. destruct (and_get_ok data "products") as [products P].
  exists products. split; [done |]. unfold fetchProducts.
  erewrite try_catch_ok; [reflexivity |]. unfold products_of.
  rewrite tpl_string, bind_lift_ok, (bind_ok _ _ _ _ _ E), P, bind_lift_ok.
  by destruct (truthy products).
Qed.

(** X4.  When the blogs.json request is answered, fetchBlogs returns the
    blogs field of the body as it is when that is truthy, and the empty
    list otherwise; the homepage is not requested. *)
Theorem fetchBlogs_listing_answered (s : string) (w w1 : World) (data : value) :
  axios_get (VStr (s +:+ "/blogs.json")) w = (w1, Ok data) ->
  exists blogs,
    and_get data "blogs" = Ok blogs
    /\ fetchBlogs (VStr s) w = (w1, Ok (if truthy blogs then blogs else VArr [])).
Proof.
  intros E. destruct (and_get_ok data "blogs") as [blogs P].
  exists blogs. split; [done |]. unfold fetchBlogs.
  erewrite try_catch_ok; [reflexivity |].
  rewrite tpl_string, bind_lift_ok, (bind_ok _ _ _ _ _ E), P, bind_lift_ok.
  by destruct (truthy blogs).
Qed.

(** X5.  When the collections.json request is answered with a body whose
    collections field is missing or falsy, fetchCollections returns the
    empty list: no detail is requested and the collections page is not
    scraped. *)
Theorem fetchCollections_listing_without_collections (s : string) (w w0 : World)
    (data collections : value) :
  axios_get (VStr (s +:+ "/collections.json")) w = (w0, Ok data) ->
  and_get data "collections" = Ok collections ->
  truthy collections = false ->
  fetchCollections (VStr s) w = (w0, Ok (VArr [])).
Proof.
  intros E P T. unfold fetchCollections.
  erewrite try_catch_ok; [reflexivity |].
  by rewrite tpl_string, bind_lift_ok, (bind_ok _ _ _ _ _ E), P, bind_lift_ok, T.
Qed.


Lemma traverse_app {St : Type} (body : value -> St -> M (value * St))
    (xs ys : list value) (s : St) (w : World) :
  traverse body (xs ++ ys) s w =
  match traverse body xs s w with
  | (w1, Ok r1) =>
      match traverse body ys r1.2 w1 with
      | (w2, Ok r2) => (w2, Ok (r1.1 ++ r2.1, r2.2))
      | (w2, Throw e) => (w2, Throw e)
      end
  | (w1, Throw e) => (w1, Throw e)
  end.
Proof.
  revert s w. induction xs as [|x xs IH]; intros s w.
  - cbn [app traverse]. unfold ret at 1. cbn [fst snd app].
    by destruct (traverse body ys s w) as [w2 [[ys' s2]|e]].
  - cbn [app traverse].
    destruct (body x s w) as [w0 [[y s0]|e]] eqn:E.
    2:{ by rewrite !(bind_throw _ _ _ _ _ E). }
    rewrite !(bind_ok _ _ _ _ _ E). cbn [fst snd].
    pose proof (IH s0 w0) as H.
    destruct (traverse body xs s0 w0) as [w1 [[xs' s1]|e]] eqn:Exs.
    2:{ by rewrite (bind_throw _ _ _ _ _ H), (bind_throw _ _ _ _ _ Exs). }
    rewrite (bind_ok _ _ _ _ _ Exs). cbn [fst snd] in *.
    destruct (traverse body ys s1 w1) as [w2 [[ys' s2]|e]] eqn:Eys.
    + rewrite (bind_ok _ _ _ _ _ H). unfold ret. cbn [fst snd]. by rewrite Eys.
    + rewrite (bind_throw _ _ _ _ _ H). unfold ret. cbn [fst snd]. by rewrite Eys.
Qed.

Lemma traverse_throws_at {St : Type} (body : value -> St -> M (value * St))
    (pre post : list value) (x : value) (s s1 : St) (w w1 w2 : World)
    (pre' : list value) (e : exn) :
  traverse body pre s w = (w1, Ok (pre', s1)) ->
  body x s1 w1 = (w2, Throw e) ->
  traverse body (pre ++ x :: post) s w = (w2, Throw e).
Proof.
  intros Hpre Hx. rewrite traverse_app, Hpre. cbn [fst snd traverse].
  by rewrite (bind_throw _ _ _ _ _ Hx).
Qed.

Lemma enrich_throws (s : string) (c : value) (e : exn) (w : World) :
  detail_url (VStr s) c = Throw e ->
  exists e', enrich (VStr s) c w = (w, Throw e').
Proof.
  intros U. unfold enrich.
  erewrite try_catch_throw; [| by rewrite U, bind_lift_throw].
  unfold detail_url in U. cbn [to_string rbind] in U.
  destruct (get c "handle") as [h|e0]; cbn [rbind] in *.
  - destruct (to_string h) as [slug|e1]; [done |]. rewrite bind_lift_throw. eauto.
  - rewrite bind_lift_throw. eauto.
Qed.

Lemma scrape_collections_run (s : string) (w w' : World) (html : string) :
  axios_get (VStr (s +:+ "/collections")) w = (w', Ok (VStr html)) ->
  scrape_collections (VStr s) w =
  (w', Ok (VArr (scan decimal s collection_anchor 0
                   (select (cheerio_parse html) sel_collection_links) []))).
Proof.
  intros E. unfold scrape_collections.
  rewrite tpl_string, bind_lift_ok, (bind_ok _ _ _ _ _ E).
  cbn [cheerio_load]. rewrite bind_lift_ok.
  rewrite (each_scan _ decimal s collection_anchor); [done |].
  apply Forall_forall. intros el Hel i acc. apply collection_link_run.
  intros href Hh.
  destruct (select_href_has _ _ _ Hel) as (href' & Hh' & Hi). congruence.
Qed.

(** X7.  One entry of the listing that cannot be asked for (it is null,
    or its handle cannot be rendered) makes fetchCollections give up the
    whole listing, the entries already enriched included: the catch
    block of the detail request throws while it builds its log message,
    and what is returned is what the scan of the collections page
    finds. *)
Theorem fetchCollections_unusable_entry_falls_back (s : string)
    (w w0 w1 w2 : World) (data c : value) (pre post : list value)
    (urls : list string) (rs : list (result value)) (e : exn) (html : string) :
  axios_get (VStr (s +:+ "/collections.json")) w = (w0, Ok data) ->
  get data "collections" = Ok (VArr (pre ++ c :: post)) ->
  Forall2 (fun c url => detail_url (VStr s) c = Ok url) pre urls ->
  fetch_each urls w0 = (w1, rs) ->
  detail_url (VStr s) c = Throw e ->
  axios_get (VStr (s +:+ "/collections")) w1 = (w2, Ok (VStr html)) ->
  fetchCollections (VStr s) w =
  (w2, Ok (VArr (scan decimal s collection_anchor 0
                   (select (cheerio_parse html) sel_collection_links) []))).
Proof.
  intros E G F R U P.
  destruct (enrich_throws s c e w1 U) as [e' He'].
  unfold fetchCollections.
  erewrite try_catch_throw.
  - erewrite try_catch_ok; [reflexivity | by apply scrape_collections_run].
  - rewrite tpl_string, bind_lift_ok, (bind_ok _ _ _ _ _ E).
    rewrite (and_get_field _ _ _ G eq_refl), bind_lift_ok.
    cbn [truthy iterate]. rewrite bind_lift_ok.
    apply bind_throw. rewrite for_of_traverse.
    eapply traverse_throws_at.
    + rewrite (traverse_enrich s pre urls w0 F), R. reflexivity.
    + by rewrite (bind_throw _ _ _ _ _ He').
Qed.

(** X8.  One article that the summary loop cannot handle (a null entry,
    or content that is not text and that the parser refuses) makes
    fetchArticles return the empty list: the articles before it, already
    summarised, are lost with it. *)
Theorem fetchArticles_unusable_entry_empties (s h : string) (w w' : World)
    (data a : value) (pre post : list value) (e : exn) :
  axios_get (VStr (s +:+ "/blogs/" +:+ h +:+ "/articles.json")) w = (w', Ok data) ->
  get data "articles" = Ok (VArr (pre ++ a :: post)) ->
  Forall (fun a => is_article a = true) pre ->
  summarize a = Throw e ->
  fetchArticles (VStr s) (VStr h) w = (w', Ok (VArr [])).
Proof.
  intros E G F S. unfold fetchArticles.
  erewrite try_catch_throw; [reflexivity |].
  change (articles_url (VStr s) (VStr h))
    with (Ok (A:=string) (s +:+ "/blogs/" +:+ h +:+ "/articles.json")).
  rewrite bind_lift_ok, (bind_ok _ _ _ _ _ E).
  rewrite (and_get_field _ _ _ G eq_refl), bind_lift_ok.
  cbn [truthy iterate]. rewrite bind_lift_ok.
  apply bind_throw. rewrite for_of_traverse.
  eapply traverse_throws_at.
  - by apply traverse_summarize.
  - by rewrite S, bind_lift_throw.
Qed.

(** X9.  fetchArticles returns the empty list when its request fails and
    when the body it gets has no truthy articles field; there is no
    second source. *)
Theorem fetchArticles_nothing_to_return (s h : string) (w w' : World) (r : result value) :
  axios_get (VStr (s +:+ "/blogs/" +:+ h +:+ "/articles.json")) w = (w', r) ->
  match r with
  | Throw _ => True
  | Ok data => exists articles, and_get data "articles" = Ok articles
                                /\ truthy articles = false
  end ->
  fetchArticles (VStr s) (VStr h) w = (w', Ok (VArr [])).
Proof.
  intros E H. unfold fetchArticles.
  change (articles_url (VStr s) (VStr h))
    with (Ok (A:=string) (s +:+ "/blogs/" +:+ h +:+ "/articles.json")).
  destruct r as [data|e].
  - destruct H as (articles & A & T).
    erewrite try_catch_ok; [reflexivity |].
    by rewrite bind_lift_ok, (bind_ok _ _ _ _ _ E), A, bind_lift_ok, T.
  - erewrite try_catch_throw; [reflexivity |].
    by rewrite bind_lift_ok, (bind_throw _ _ _ _ _ E).
Qed.

(** *** handler *)

Lemma handler_after_blogs (req : request) (storeUrl : value)
    (w w1 w2 w3 w4 : World) (info : store_info) (prods colls blogs : value) :
  method req = "POST" ->
  get (body req) "storeUrl" = Ok storeUrl ->
  truthy storeUrl = true ->
  fetchStoreInfo storeUrl w = (w1, Ok info) ->
  fetchProducts storeUrl w1 = (w2, Ok prods) ->
  fetchCollections storeUrl w2 = (w3, Ok colls) ->
  fetchBlogs storeUrl w3 = (w4, Ok blogs) ->
  handler req w =
  match iterate blogs with
  | Ok cells =>
      match traverse (attach_articles storeUrl) cells [] w4 with
      | (w5, Ok done) =>
          (w5, Ok (Scraped {| products := prods; collections := colls;
                              blogs := with_cells blogs done.1;
                              articles := done.2; storeInfo := info |}))
      | (w5, Throw e) => (w5, Ok (ScrapeFailed e))
      end
  | Throw e => (w4, Ok (ScrapeFailed e))
  end.
Proof.
  intros Hm Hb Ht E1 E2 E3 E4.
  unfold handler. rewrite Hm, String.eqb_refl. cbn [negb].
  rewrite Hb, bind_lift_ok, Ht. cbn [negb].
  destruct (iterate blogs) as [cells|e] eqn:I.
  - destruct (traverse (attach_articles storeUrl) cells [] w4) as [w5 [done|e]] eqn:T.
    + erewrite try_catch_ok; [reflexivity |].
      rewrite (bind_ok _ _ _ _ _ E1), (bind_ok _ _ _ _ _ E2).
      rewrite (bind_ok _ _ _ _ _ E3), (bind_ok _ _ _ _ _ E4), I, bind_lift_ok.
      rewrite (bind_ok _ _ w4 w5 done); [done |]. by rewrite for_of_traverse.
    + erewrite try_catch_throw; [reflexivity |].
      rewrite (bind_ok _ _ _ _ _ E1), (bind_ok _ _ _ _ _ E2).
      rewrite (bind_ok _ _ _ _ _ E3), (bind_ok _ _ _ _ _ E4), I, bind_lift_ok.
      apply bind_throw. by rewrite for_of_traverse.
  - erewrite try_catch_throw; [reflexivity |].
    rewrite (bind_ok _ _ _ _ _ E1), (bind_ok _ _ _ _ _ E2).
    rewrite (bind_ok _ _ _ _ _ E3), (bind_ok _ _ _ _ _ E4), I.
    by rewrite bind_lift_throw.
Qed.

(** X10.  When what fetchBlogs returns cannot be iterated (blogs.json
    answered with a blogs field that is an object, a number or true),
    the loop over the blogs throws and handler answers with the scrape
    failure, although every collector returned. *)
Theorem handler_blogs_not_iterable (req : request) (storeUrl : value)
    (w w1 w2 w3 w4 : World) (info : store_info) (prods colls blogs : value) (e : exn) :
  method req = "POST" ->
  get (body req) "storeUrl" = Ok storeUrl ->
  truthy storeUrl = true ->
  fetchStoreInfo storeUrl w = (w1, Ok info) ->
  fetchProducts storeUrl w1 = (w2, Ok prods) ->
  fetchCollections storeUrl w2 = (w3, Ok colls) ->
  fetchBlogs storeUrl w3 = (w4, Ok blogs) ->
  iterate blogs = Throw e ->
  handler req w = (w4, Ok (ScrapeFailed e)).
Proof.
  intros Hm Hb Ht E1 E2 E3 E4 I.
  by rewrite (handler_after_blogs _ _ _ _ _ _ _ _ _ _ _ Hm Hb Ht E1 E2 E3 E4), I.
Qed.

Lemma attach_articles_throws (storeUrl b : value) (flat : list value) (w : World) :
  takes_properties b = false ->
  exists w', attach_articles storeUrl b flat w = (w', Throw TypeError).
Proof.
  intros H. unfold attach_articles.
  destruct b; try discriminate; cbn [get]; try (rewrite bind_lift_throw; eauto);
    rewrite bind_lift_ok;
    destruct (fetchArticles_returns storeUrl VUndef _ w eq_refl) as (w' & a & E);
    rewrite (bind_ok _ _ _ _ _ E); cbn [set]; rewrite bind_lift_throw; eauto.
Qed.

(** X11.  One entry of the blog list that is not an object (null, a
    number, a string, a boolean) makes handler answer with the scrape
    failure, after the articles of the blogs before it were fetched:
    reading the handle of null throws, and so does writing the articles
    onto a primitive. *)
Theorem handler_blog_not_an_object (req : request) (storeUrl : value)
    (w w1 w2 w3 w4 w5 : World) (info : store_info) (prods colls : value)
    (bs : list (gmap string value)) (ls : list (list value))
    (b : value) (rest : list value) :
  method req = "POST" ->
  get (body req) "storeUrl" = Ok storeUrl ->
  truthy storeUrl = true ->
  fetchStoreInfo storeUrl w = (w1, Ok info) ->
  fetchProducts storeUrl w1 = (w2, Ok prods) ->
  fetchCollections storeUrl w2 = (w3, Ok colls) ->
  fetchBlogs storeUrl w3 = (w4, Ok (VArr ((VObj <$> bs) ++ b :: rest))) ->
  articles_per_blog storeUrl (VObj <$> bs) w4 = (w5, Ok (VArr <$> ls)) ->
  takes_properties b = false ->
  exists w6, handler req w = (w6, Ok (ScrapeFailed TypeError)).
Proof.
  intros Hm Hb Ht E1 E2 E3 E4 E5 Hp.
  rewrite (handler_after_blogs _ _ _ _ _ _ _ _ _ _ _ Hm Hb Ht E1 E2 E3 E4).
  cbn [iterate].
  destruct (attach_articles_throws storeUrl b ([] ++ concat ls) w5 Hp) as [w6 Hb6].
  exists w6.
  by rewrite (traverse_throws_at _ _ _ _ _ _ _ _ _ _ _
                (traverse_attach _ _ _ _ _ _ E5) Hb6).
Qed.

Lemma handler_answers (req : request) (storeUrl : value) (w : World) :
  method req = "POST" ->
  get (body req) "storeUrl" = Ok storeUrl ->
  truthy storeUrl = true ->
  exists w' r,
    handler req w = (w', Ok r)
    /\ ((exists storeData, r = Scraped storeData) \/ (exists e, r = ScrapeFailed e)).
Proof.
  intros Hm Hb Ht.
  destruct (fetchStoreInfo_total storeUrl w) as (w1 & info & E1).
  destruct (fetchProducts_total storeUrl w1) as (w2 & prods & E2).
  destruct (fetchCollections_total storeUrl w2) as (w3 & colls & E3).
  destruct (fetchBlogs_total storeUrl w3) as (w4 & blogs & E4).
  rewrite (handler_after_blogs _ _ _ _ _ _ _ _ _ _ _ Hm Hb Ht E1 E2 E3 E4).
  destruct (iterate blogs) as [cells|e]; [| by eauto 6].
  destruct (traverse (attach_articles storeUrl) cells [] w4) as [w5 [done|e]];
    eauto 7.
Qed.

(** X12.  The four outcomes of handler.  A method other than POST is
    answered 405 and a falsy storeUrl 400, in both cases before any
    request is made.  A null or missing body makes the destructuring
    throw outside the try block, so the exception leaves handler.  In
    every other case handler answers, with the aggregate or with the
    scrape failure. *)
Theorem handler_outcomes (req : request) (w : World) :
  (method req <> "POST" -> handler req w = (w, Ok MethodNotAllowed))
  /\ (method req = "POST" ->
      match get (body req) "storeUrl" with
      | Throw e => handler req w = (w, Throw e)
      | Ok storeUrl =>
          if truthy storeUrl
          then exists w' r,
                 handler req w = (w', Ok r)
                 /\ ((exists storeData, r = Scraped storeData)
                     \/ (exists e, r = ScrapeFailed e))
          else handler req w = (w, Ok StoreUrlRequired)
      end).
Proof.
  split.
  - intros Hm. unfold handler.
    by rewrite (proj2 (String.eqb_neq _ _) Hm).
  - intros Hm.
    destruct (get (body req) "storeUrl") as [storeUrl|e] eqn:Hb.
    + destruct (truthy storeUrl) eqn:Ht.
      * by apply (handler_answers req storeUrl).
      * unfold handler. rewrite Hm, String.eqb_refl. cbn [negb].
        by rewrite Hb, bind_lift_ok, Ht.
    + unfold handler. rewrite Hm, String.eqb_refl. cbn [negb].
      by rewrite Hb, bind_lift_throw.
Qed.

(** *** The link scans *)

Lemma handle_of_entry (id h title url : string) : handle_of (entry id h title url) = Some h.
Proof.
  unfold handle_of, entry. cbn [get].
  rewrite lookup_insert_ne by done. by rewrite lookup_insert_eq.
Qed.

Lemma has_handle_of (h h' : string) (e : value) :
  handle_of e = Some h' -> has_handle h e = String.eqb h' h.
Proof.
  unfold handle_of, has_handle. destruct (get e "handle") as [v|]; [| done].
  destruct v; try done. by intros [= ->].
Qed.

Section ScanInvariants.

Variable mkid : nat -> string.
Variable s : string.
Variable anchor_of : node -> option (string * string).

Lemma record_link_cases (i : nat) (el : node) (acc : list value) :
  record_link mkid s anchor_of i el acc = acc
  \/ exists h href,
       anchor_of el = Some (h, href)
       /\ existsb (has_handle h) acc = false
       /\ trim (text el) <> ""
       /\ record_link mkid s anchor_of i el acc
          = acc ++ [entry (mkid i) h (trim (text el)) (link s href)].
Proof.
  unfold record_link. destruct (anchor_of el) as [[h href]|]; [| by left].
  destruct (existsb (has_handle h) acc) eqn:E; [by left |].
  destruct (nonempty (trim (text el))) eqn:T; [| by left].
  right. exists h, href. repeat split; try done.
  intros H. by rewrite H in T.
Qed.

Lemma scan_from_anchors (els pre : list node) (acc : list value) (js : list nat) :
  StronglySorted lt js ->
  Forall (fun j => j < length pre) js ->
  Forall2 (fun j e =>
             exists el h href,
               (pre ++ els) !! j = Some el
               /\ anchor_of el = Some (h, href)
               /\ trim (text el) <> ""
               /\ e = entry (mkid j) h (trim (text el)) (link s href)) js acc ->
  from_anchors mkid s anchor_of (pre ++ els)
    (scan mkid s anchor_of (length pre) els acc).
Proof.
  revert pre acc js. induction els as [|el els IH]; intros pre acc js Hs Hlt Hf.
  - exists js. by rewrite app_nil_r in *.
  - cbn [scan].
    replace (pre ++ el :: els) with ((pre ++ [el]) ++ els) in *
      by (by rewrite <- app_assoc).
    replace (S (length pre)) with (length (pre ++ [el]))
      by (rewrite length_app; simpl; lia).
    destruct (record_link_cases (length pre) el acc)
      as [-> | (h & href & Ha & _ & Hv & ->)].
    + apply (IH _ _ js); [done | | done].
      eapply Forall_impl; [exact Hlt |]. intros j Hj. rewrite length_app. simpl in *. lia.
    + apply (IH _ _ (js ++ [length pre])).
      * apply StronglySorted_app. split; [| split; [done | repeat constructor]].
        intros j1 j2 H1 H2. apply list_elem_of_singleton in H2 as ->.
        by apply (proj1 (Forall_forall _ _) Hlt).
      * apply Forall_app. split.
        -- eapply Forall_impl; [exact Hlt |]. intros j Hj. rewrite length_app.
           simpl in *. lia.
        -- repeat constructor. rewrite length_app. simpl. lia.
      * apply Forall2_app; [done |]. repeat constructor.
        exists el, h, href. split; [| done].
        rewrite lookup_app_l by (rewrite length_app; simpl; lia).
        by apply list_lookup_middle.
Qed.

Lemma scan_handles_distinct (els : list node) (i : nat) (acc : list value) :
  NoDup (omap handle_of acc) ->
  length (omap handle_of acc) = length acc ->
  NoDup (omap handle_of (scan mkid s anchor_of i els acc))
  /\ length (omap handle_of (scan mkid s anchor_of i els acc))
     = length (scan mkid s anchor_of i els acc).
Proof.
  revert i acc. induction els as [|el els IH]; intros i acc Hn Hl; [done |].
  cbn [scan].
  destruct (record_link_cases i el acc) as [-> | (h & href & _ & He & _ & ->)].
  - by apply IH.
  - apply IH.
    + rewrite omap_app. cbn [omap list_omap]. rewrite handle_of_entry.
      apply NoDup_app. split; [done |]. split; [| apply NoDup_singleton].
      intros h' Hin Hh'. apply list_elem_of_singleton in Hh' as ->.
      apply list_elem_of_omap in Hin as (e & Hin & Hh).
      assert (existsb (has_handle h) acc = true); [| congruence].
      apply existsb_exists. exists e. split; [by apply list_elem_of_In |].
      by rewrite (has_handle_of _ _ _ Hh), String.eqb_refl.
    + rewrite omap_app, !length_app. cbn [omap list_omap].
      rewrite handle_of_entry. simpl. lia.
Qed.

End ScanInvariants.

Lemma collection_anchor_guards (el : node) (h href : string) :
  collection_anchor el = Some (h, href) ->
  attr_of el "href" = Some href
  /\ includes href "/products/" = false
  /\ includes href "/collections/all" = false
  /\ h <> "".
Proof.
  unfold collection_anchor. destruct (attr_of el "href") as [href'|]; [| done].
  destruct (nonempty href') eqn:N; [| done]. cbn [andb].
  destruct (includes href' "/products/") eqn:P; [done |].
  destruct (includes href' "/collections/all") eqn:A; [done |]. cbn [negb andb].
  destruct (collection_handle href') as [h'|]; [| done].
  destruct (nonempty h') eqn:N'; [| done]. intros [= -> ->].
  do 3 (split; [done |]). intros H. by rewrite H in N'.
Qed.

Lemma blog_anchor_guards (el : node) (h href : string) :
  blog_anchor el = Some (h, href) ->
  attr_of el "href" = Some href
  /\ includes href "/blogs/news/tagged/" = false
  /\ h <> "".
Proof.
  unfold blog_anchor. destruct (attr_of el "href") as [href'|]; [| done].
  destruct (nonempty href') eqn:N; [| done]. cbn [andb].
  destruct (includes href' "/blogs/news/tagged/") eqn:P; [done |]. cbn [negb].
  destruct (split href' "/blogs/" !! 1) as [rest|]; [| done]. cbn zeta.
  destruct (nonempty (default "" (head (split rest "/")))) eqn:N'; [| done].
  intros [= <- ->]. do 2 (split; [done |]). intros H. by rewrite H in N'.
Qed.

(** X13.  In the HTML-fallback path of fetchCollections and of fetchBlogs
    every returned entry is made from one anchor of the scan that has
    visible text, and the entries stand in the order of their anchors.
    No entry comes from a product link, from a link with
    /collections/all in it or from a tag archive, and none has an empty
    handle or an empty title. *)
Theorem html_fallback_entries_in_scan_order (s s' : string)
    (w w0 w1 w' w0' w1' : World) (e e' : exn) (html html' : string) :
  axios_get (VStr (s +:+ "/collections.json")) w = (w0, Throw e) ->
  axios_get (VStr (s +:+ "/collections")) w0 = (w1, Ok (VStr html)) ->
  axios_get (VStr (s' +:+ "/blogs.json")) w' = (w0', Throw e') ->
  axios_get (VStr s') w0' = (w1', Ok (VStr html')) ->
  (exists out,
     fetchCollections (VStr s) w = (w1, Ok (VArr out))
     /\ from_anchors decimal s collection_anchor
          (select (cheerio_parse html) sel_collection_links) out)
  /\ (exists out,
     fetchBlogs (VStr s') w' = (w1', Ok (VArr out))
     /\ from_anchors blog_id s' blog_anchor
          (select (cheerio_parse html') sel_blog_links) out)
  /\ (forall el h href,
        collection_anchor el = Some (h, href) ->
        attr_of el "href" = Some href
        /\ includes href "/products/" = false
        /\ includes href "/collections/all" = false
        /\ h <> "")
  /\ (forall el h href,
        blog_anchor el = Some (h, href) ->
        attr_of el "href" = Some href
        /\ includes href "/blogs/news/tagged/" = false
        /\ h <> "").
Proof.
  intros E0 E1 E0' E1'.
  split; [| split; [| split; [apply collection_anchor_guards | apply blog_anchor_guards]]].
  - eexists. split; [by eapply fetchCollections_fallback_run |].
    apply (scan_from_anchors decimal s collection_anchor _ [] [] []); constructor.
  - eexists. split; [by eapply fetchBlogs_fallback_run |].
    apply (scan_from_anchors blog_id s' blog_anchor _ [] [] []); constructor.
Qed.

(** X14.  In the HTML-fallback path of fetchCollections and of fetchBlogs
    every returned entry has a handle and no two entries have the same
    one. *)
Theorem html_fallback_handles_distinct (s s' : string)
    (w w0 w1 w' w0' w1' : World) (e e' : exn) (html html' : string) :
  axios_get (VStr (s +:+ "/collections.json")) w = (w0, Throw e) ->
  axios_get (VStr (s +:+ "/collections")) w0 = (w1, Ok (VStr html)) ->
  axios_get (VStr (s' +:+ "/blogs.json")) w' = (w0', Throw e') ->
  axios_get (VStr s') w0' = (w1', Ok (VStr html')) ->
  (exists out,
     fetchCollections (VStr s) w = (w1, Ok (VArr out))
     /\ NoDup (omap handle_of out)
     /\ length (omap handle_of out) = length out)
  /\ (exists out,
     fetchBlogs (VStr s') w' = (w1', Ok (VArr out))
     /\ NoDup (omap handle_of out)
     /\ length (omap handle_of out) = length out).
Proof.
  intros E0 E1 E0' E1'. split.
  - eexists. split; [by eapply fetchCollections_fallback_run |].
    apply scan_handles_distinct; [constructor | done].
  - eexists. split; [by eapply fetchBlogs_fallback_run |].
    apply scan_handles_distinct; [constructor | done].
Qed.

(** *** fetchStoreInfo *)

Lemma search_social_shape (p : string) (prev : option ascii) (s m : string) :
  search (social p) prev s = Some m ->
  exists path, m = p +:+ path /\ path <> "" /\ take_while not_delim path = path.
Proof.
  revert prev. induction s as [|c s IH]; intros prev; rewrite search_unfold,
    match_here_social.
  - destruct (startsWith "" p); [| done].
    destruct (skip_n (String.length p) "") as [|c r]; [done |].
    destruct (not_delim c) eqn:N; [| done]. intros [= <-].
    exists (String c (take_while not_delim r)). split; [done |]. split; [done |].
    cbn [take_while]. rewrite N. f_equal.
    clear. induction r as [|d r IH]; [done |]. cbn [take_while].
    destruct (not_delim d) eqn:D; [| done]. cbn [take_while]. by rewrite D, IH.
  - destruct (startsWith (String c s) p).
    + destruct (skip_n (String.length p) (String c s)) as [|c' r]; [by apply IH |].
      destruct (not_delim c') eqn:N; [| by apply IH]. intros [= <-].
      exists (String c' (take_while not_delim r)). split; [done |]. split; [done |].
      cbn [take_while]. rewrite N. f_equal.
      clear. induction r as [|d r IH]; [done |]. cbn [take_while].
      destruct (not_delim d) eqn:D; [| done]. cbn [take_while]. by rewrite D, IH.
    + by apply IH.
Qed.

Lemma social_links_fold (html : string) (domains : list (string * string))
    (links : gmap string string) (k v : string) :
  Forall (fun d => forall x, startsWith (d.2 +:+ x) "http" = false) domains ->
  foldl (fun links (platform : string * regex) =>
           match first_match html platform.2 with
           | Some url =>
               <[platform.1 := if startsWith url "http" then url else "https://" +:+ url]> links
           | None => links
           end) links ((fun d => (d.1, social d.2)) <$> domains) !! k = Some v ->
  links !! k = Some v
  \/ exists domain path,
       (k, domain) ∈ domains
       /\ v = "https://" +:+ domain +:+ path
       /\ path <> ""
       /\ take_while not_delim path = path.
Proof.
  intros F. revert links. induction F as [|[n p] domains Hp _ IH]; intros links; [by left |].
  cbn [fmap list_fmap foldl fst snd]. intros H.
  apply IH in H as [H | (domain & path & Hin & Hv)].
  - destruct (first_match html (social p)) as [url|] eqn:M; [| by left].
    destruct (decide (n = k)) as [-> | Hne].
    + rewrite lookup_insert_eq in H. right.
      destruct (search_social_shape _ _ _ _ M) as (path & -> & Hpath).
      cbn [snd] in Hp. rewrite Hp in H. injection H as <-.
      exists p, path. split; [left | done].
    + rewrite lookup_insert_ne in H by done. by left.
  - right. exists domain, path. split; [by right | done].
Qed.

Lemma social_links_shape (html k v : string) :
  social_links html !! k = Some v ->
  exists domain path,
    (k, domain) ∈ social_domains
    /\ v = "https://" +:+ domain +:+ path
    /\ path <> ""
    /\ take_while not_delim path = path.
Proof.
  intros H. apply (social_links_fold html social_domains ∅) in H as [H | H]; [done | done |].
  repeat constructor; intros x; reflexivity.
Qed.

Lemma extract_store_info_links (storeUrl : value) (html : string) (info : store_info) :
  extract_store_info storeUrl html = Ok info -> socialLinks info = social_links html.
Proof.
  unfold extract_store_info. cbn zeta.
  match goal with |- context [rbind ?m _] => destruct m as [logo|]; [| done] end.
  cbn [rbind].
  match goal with |- context [rbind ?m _] => destruct m as [favicon|]; [| done] end.
  cbn [rbind]. by intros [= <-].
Qed.

Lemma fetchStoreInfo_cases (storeUrl : value) (w w' : World) (info : store_info) :
  fetchStoreInfo storeUrl w = (w', Ok info) ->
  info = unknown_store
  \/ exists html,
       axios_get storeUrl w = (w', Ok (VStr html))
       /\ extract_store_info storeUrl html = Ok info.
Proof.
  unfold fetchStoreInfo, try_catch, bind.
  destruct (axios_get storeUrl w) as [w1 [data|e]]; [| intros [= _ <-]; by left].
  destruct data; try (intros [= _ <-]; by left).
  unfold lift. destruct (extract_store_info storeUrl s) as [i|e] eqn:X.
  - intros [= <- <-]. right. by exists s.
  - intros [= _ <-]. by left.
Qed.

(** X15.  Every social link fetchStoreInfo returns is, under the key of
    one of the six platforms, https:// followed by the bare domain of
    that platform and a non-empty path without quotes or white space.
    The text matched always starts at the domain, so the test for a
    leading http never succeeds and whatever scheme and subdomain the
    page had are not kept. *)
Theorem fetchStoreInfo_social_links_shape (storeUrl : value) (w w' : World)
    (info : store_info) (k v : string) :
  fetchStoreInfo storeUrl w = (w', Ok info) ->
  socialLinks info !! k = Some v ->
  exists domain path,
    (k, domain) ∈ social_domains
    /\ v = "https://" +:+ domain +:+ path
    /\ path <> ""
    /\ take_while not_delim path = path.
Proof.
  intros E H. apply fetchStoreInfo_cases in E as [-> | (html & _ & X)]; [done |].
  rewrite (extract_store_info_links _ _ _ X) in H. exact (social_links_shape _ _ _ H).
Qed.

Lemma first_n_length (n : nat) (s : string) : String.length (first_n n s) <= n.
Proof.
  revert s. induction n as [|n IH]; intros [|c s]; simpl; try lia.
  specialize (IH s). lia.
Qed.

Lemma startsWith_first_n (n : nat) (s : string) : startsWith s (first_n n s) = true.
Proof.
  revert s. induction n as [|n IH]; intros [|c s]; simpl; try done.
  by rewrite Ascii.eqb_refl, IH.
Qed.

Lemma first_n_all (n : nat) (s : string) : String.length s <= n -> first_n n s = s.
Proof.
  revert s. induction n as [|n IH]; intros [|c s]; simpl; try done; [lia |].
  intros L. rewrite IH; [done | lia].
Qed.


Lemma substring_from_start (s : string) (n : nat) :
  substring s 0 (Z.of_nat n) = first_n n s.
Proof.
  unfold substring. cbn zeta.
  set (len := String.length s).
  replace (Z.to_nat (Z.min (Z.max 0 (Z.min 0 (Z.of_nat len)))
                       (Z.max 0 (Z.min (Z.of_nat n) (Z.of_nat len))))) with 0 by lia.
  replace (Z.to_nat (Z.max (Z.max 0 (Z.min 0 (Z.of_nat len)))
                       (Z.max 0 (Z.min (Z.of_nat n) (Z.of_nat len))))) with (min n len) by lia.
  rewrite Nat.sub_0_r. cbn [skip_n]. replace (skip_n 0 s) with s by (by destruct s).
  destruct (Nat.le_ge_cases n len) as [H | H].
  - by rewrite Nat.min_l.
  - rewrite Nat.min_r by done. by rewrite !first_n_all by (subst len; lia).
Qed.




(** X16.  An article that comes with non-empty content leaves
    fetchArticles without the content and with a summary of at most 200
    code units of the first paragraph, taken from its start, followed by
    three dots; a first paragraph of at most 200 code units is kept
    whole. *)
Theorem fetchArticles_summary_bounded (s h : string) (w w' : World) (data : value)
    (arts : list value) (i : nat) (a : gmap string value) (markup : string) :
  axios_get (VStr (s +:+ "/blogs/" +:+ h +:+ "/articles.json")) w = (w', Ok data) ->
  get data "articles" = Ok (VArr arts) ->
  Forall (fun a => is_article a = true) arts ->
  arts !! i = Some (VObj a) ->
  a !! "content" = Some (VStr markup) ->
  markup <> "" ->
  exists out a' t,
    fetchArticles (VStr s) (VStr h) w = (w', Ok (VArr out))
    /\ out !! i = Some (VObj a')
    /\ a' !! "content" = None
    /\ a' !! "summary" = Some (VStr (t +:+ "..."))
    /\ String.length t <= 200
    /\ startsWith (trim (first_paragraph (cheerio_parse markup))) t = true
    /\ (String.length (trim (first_paragraph (cheerio_parse markup))) <= 200 ->
        t = trim (first_paragraph (cheerio_parse markup))).
Proof.
  intros E G F Hi Hc Hm.
  exists (summarized <$> arts),
         (delete "content" (<["summary" := VStr (summary_of (cheerio_parse markup))]> a)),
         (first_n 200 (trim (first_paragraph (cheerio_parse markup)))).
  split; [exact (fetchArticles_run _ _ _ _ _ _ E G F) |].
  split.
  { rewrite list_lookup_fmap, Hi. cbn [fmap option_fmap option_map summarized].
    rewrite Hc. destruct markup; [done | reflexivity]. }
  split; [apply lookup_delete_eq |].
  split.
  { rewrite lookup_delete_ne by done. rewrite lookup_insert_eq.
    unfold summary_of. rewrite first_text.
    by rewrite (substring_from_start _ 200). }
  split; [apply first_n_length |].
  split; [apply startsWith_first_n |].
  apply first_n_all.
Qed.


Lemma extract_store_info_name (storeUrl : value) (html : string) (info : store_info) :
  extract_store_info storeUrl html = Ok info ->
  name info =
    let doc := cheerio_parse html in
    let title := trim (default "" (head (split (text_of (select doc sel_title)) "|"))) in
    if nonempty title then title
    else default "" (attr (select doc sel_site_name) "content").
Proof.
  unfold extract_store_info. cbn zeta.
  match goal with |- context [rbind ?m _] => destruct m as [logo|]; [| done] end.
  cbn [rbind].
  match goal with |- context [rbind ?m _] => destruct m as [favicon|]; [| done] end.
  cbn [rbind]. by intros [= <-].
Qed.

Lemma split_go_head (cur a rest : string) :
  includes a "|" = false ->
  rest = "" \/ startsWith rest "|" = true ->
  head (split_go "|" 0 cur (a +:+ rest)) = Some (cur +:+ a).
Proof.
  intros Ha Hr. revert cur. induction a as [|c a IH]; intros cur.
  - rewrite append_nil, append_empty. destruct Hr as [-> | Hr]; [done |].
    destruct rest as [|d rest]; [done |]. cbn [split_go]. by rewrite Hr.
  - cbn [includes] in Ha. apply orb_false_iff in Ha as [Hc Ha].
    rewrite append_cons. cbn [split_go].
    assert (startsWith (String c (a +:+ rest)) "|" = false) as ->.
    { cbn [startsWith] in *. destruct (Ascii.eqb "|" c); [| done].
      by destruct a. }
    rewrite (IH Ha). by rewrite append_assoc, append_cons, append_nil.
Qed.

(** X18.  The store name is taken from the page title up to its first
    vertical bar, trimmed: whatever follows the bar never shows in the
    name, and a title without a bar is used whole.  Only when that part
    is blank is the site-name meta tag read. *)
Theorem fetchStoreInfo_name_from_title (s html a rest : string) (w w' : World) :
  axios_get (VStr s) w = (w', Ok (VStr html)) ->
  text_of (select (cheerio_parse html) sel_title) = a +:+ rest ->
  includes a "|" = false ->
  rest = "" \/ startsWith rest "|" = true ->
  exists info,
    fetchStoreInfo (VStr s) w = (w', Ok info)
    /\ name info =
         if nonempty (trim a) then trim a
         else default "" (attr (select (cheerio_parse html) sel_site_name) "content").
Proof.
  intros E T Ha Hr.
  destruct (extract_store_info_social s html) as (info & X & _).
  exists info. split.
  - unfold fetchStoreInfo. erewrite try_catch_ok; [reflexivity |].
    rewrite (bind_ok _ _ _ _ _ E). unfold lift. by rewrite X.
  - rewrite (extract_store_info_name _ _ _ X). cbn zeta.
    unfold split. by rewrite T, (split_go_head _ _ _ Ha Hr), append_nil.
Qed.

(** *** The page that calls the route *)





Lemma strip_final_slash_http (t : string) :
  startsWith t "http" = true -> startsWith (Home.strip_final_slash t) "http" = true.
Proof.
  destruct t as [|a [|b [|c [|d t]]]]; cbn [startsWith]; try done;
    try (by rewrite ?andb_false_r).
  intros H. apply andb_true_iff in H as [Ha H]. apply andb_true_iff in H as [Hb H].
  apply andb_true_iff in H as [Hc H]. apply andb_true_iff in H as [Hd _].
  apply Ascii.eqb_eq in Ha as <-, Hb as <-, Hc as <-, Hd as <-.
  destruct t as [|e t]; [reflexivity |].
  cbn [Home.strip_final_slash startsWith]. rewrite !Ascii.eqb_refl. cbn [andb].
  destruct t; [by destruct (Ascii.eqb e "/") | done].
Qed.

Lemma normalizedUrl_http (storeUrl : string) :
  startsWith (Home.normalizedUrl storeUrl) "http" = true.
Proof.
  unfold Home.normalizedUrl. apply strip_final_slash_http.
  destruct (startsWith storeUrl "http") eqn:E; [done | reflexivity].
Qed.

(** X19.  A request that the page sends is never turned away by handler:
    the page sends nothing for an empty input, and otherwise posts a
    storeUrl that starts with http, which handler answers with the
    aggregate or with the scrape failure, never with 405 or 400. *)
Theorem fetchData_request_accepted (storeUrl : string) (w : World) :
  match Home.fetchData storeUrl with
  | None => storeUrl = ""
  | Some req =>
      storeUrl <> ""
      /\ (exists u, get (body req) "storeUrl" = Ok (VStr u) /\ startsWith u "http" = true)
      /\ exists w' r,
           handler req w = (w', Ok r)
           /\ ((exists storeData, r = Scraped storeData) \/ (exists e, r = ScrapeFailed e))
  end.
Proof.
  unfold Home.fetchData. destruct storeUrl as [|c t]; [done |]. cbn [nonempty].
  set (u := Home.normalizedUrl (String c t)).
  assert (get (VObj {[ "storeUrl" := VStr u ]}) "storeUrl" = Ok (VStr u)) as G.
  { cbn [get]. by rewrite lookup_singleton_eq. }
  split; [done |]. split; [exists u; split; [done | apply normalizedUrl_http] |].
  apply (handler_answers _ (VStr u)); [done | done |].
  cbn [truthy]. pose proof (normalizedUrl_http (String c t)) as H. fold u in H.
  by destruct u.
Qed.




(** *** The matcher *)

Lemma star_loop_sound (r : regex) (k : option ascii -> string -> option string)
    (x : string) :
  (forall prev s k',
      run r prev s k' = Some x ->
      exists m prev' s', s = m +:+ s' /\ lang r m /\ k' prev' s' = Some x) ->
  forall fuel prev s,
    star_loop (run r) k fuel prev s = Some x ->
    exists m prev' s', s = m +:+ s' /\ star_of (lang r) m /\ k prev' s' = Some x.
Proof.
  intros IHr. induction fuel as [|fuel IH]; intros prev s H; cbn [star_loop] in H.
  - exists "", prev, s. split; [done |]. split; [constructor | done].
  - match type of H with
    | match ?step with _ => _ end = _ => destruct step as [rest|] eqn:R
    end.
    + injection H as ->.
      apply IHr in R as (m1 & prev1 & s1 & -> & L1 & K1).
      destruct (String.length s1 <? String.length (m1 +:+ s1)); [| done].
      apply IH in K1 as (m2 & prev2 & s2 & -> & L2 & K2).
      exists (m1 +:+ m2), prev2, s2. split; [by rewrite append_assoc |].
      split; [by constructor | done].
    + exists "", prev, s. split; [done |]. split; [constructor | done].
Qed.

Lemma run_sound (r : regex) (x : string) :
  forall prev s k,
    run r prev s k = Some x ->
    exists m prev' s', s = m +:+ s' /\ lang r m /\ k prev' s' = Some x.
Proof.
  induction r as [|p|r1 IH1 r2 IH2|r1 IH1 r2 IH2|r1 IH1|]; intros prev s k H.
  - exists "", prev, s. by cbn in *.
  - cbn [run] in H. destruct s as [|c s]; [done |].
    destruct (p c) eqn:P; [| done].
    exists (String c ""), (Some c), s. split; [done |]. split; [| done].
    by exists c.
  - cbn [run] in H. apply IH1 in H as (m1 & prev1 & s1 & -> & L1 & H).
    apply IH2 in H as (m2 & prev2 & s2 & -> & L2 & H).
    exists (m1 +:+ m2), prev2, s2. split; [by rewrite append_assoc |].
    split; [| done]. by exists m1, m2.
  - cbn [run] in H. destruct (run r1 prev s k) as [rest|] eqn:R.
    + injection H as ->. apply IH1 in R as (m & prev' & s' & -> & L & K).
      exists m, prev', s'. split; [done |]. split; [by left | done].
    + apply IH2 in H as (m & prev' & s' & -> & L & K).
      exists m, prev', s'. split; [done |]. split; [by right | done].
  - change (run (Star r1) prev s k)
      with (star_loop (run r1) k (String.length s) prev s) in H.
    by apply (star_loop_sound r1 k x IH1) in H.
  - cbn [run] in H. destruct (xorb _ _); [| done].
    exists "", prev, s. by cbn.
Qed.

Lemma match_here_sound (r : regex) (prev : option ascii) (s m : string) :
  match_here r prev s = Some m -> lang r m /\ exists post, s = m +:+ post.
Proof.
  unfold match_here. destruct (run r prev s (fun _ rest => Some rest)) as [rest|] eqn:R; [| done].
  intros [= <-]. apply run_sound in R as (m & _ & s' & -> & L & [= <-]).
  rewrite length_append.
  replace (String.length m + String.length s' - String.length s') with (String.length m) by lia.
  rewrite first_n_append. split; [done | by exists s'].
Qed.

Lemma search_sound (r : regex) (prev : option ascii) (s m : string) :
  search r prev s = Some m -> lang r m /\ exists pre post, s = pre +:+ m +:+ post.
Proof.
  revert prev. induction s as [|c s IH]; intros prev; rewrite search_unfold;
    destruct (match_here r prev _) as [m'|] eqn:M.
  - intros [= <-]. apply match_here_sound in M as (L & post & ->).
    split; [done |]. by exists "", post.
  - done.
  - intros [= <-]. apply match_here_sound in M as (L & post & E).
    split; [done |]. by exists "", post.
  - intros H. apply IH in H as (L & pre & post & ->).
    split; [done |]. by exists (String c pre), post.
Qed.

Lemma all_chars_append (f : ascii -> bool) (a b : string) :
  all_chars f (a +:+ b) = all_chars f a && all_chars f b.
Proof.
  induction a as [|c a IH]; [done |]. rewrite append_cons. cbn [all_chars].
  by rewrite IH, andb_assoc.
Qed.

Lemma lang_chars (f : ascii -> bool) (r : regex) :
  chars_within f r -> forall m, lang r m -> all_chars f m = true.
Proof.
  induction r as [|p|r1 IH1 r2 IH2|r1 IH1 r2 IH2|r1 IH1|]; cbn [chars_within lang].
  - by intros _ m ->.
  - intros H m (c & -> & P). cbn [all_chars]. by rewrite (H c P).
  - intros [H1 H2] m (m1 & m2 & -> & L1 & L2).
    by rewrite all_chars_append, (IH1 H1 m1 L1), (IH2 H2 m2 L2).
  - intros [H1 H2] m [L | L]; [by apply IH1 | by apply IH2].
  - intros H m L. induction L as [|m1 m2 L1 _ IH]; [done |].
    by rewrite all_chars_append, (IH1 H m1 L1), IH.
  - by intros _ m ->.
Qed.

Lemma lang_min_length (r : regex) (m : string) :
  lang r m -> min_length r <= String.length m.
Proof.
  revert m. induction r as [|p|r1 IH1 r2 IH2|r1 IH1 r2 IH2|r1 IH1|];
    cbn [min_length lang]; intros m.
  - lia.
  - by intros (c & -> & _).
  - intros (m1 & m2 & -> & L1 & L2). rewrite length_append.
    specialize (IH1 _ L1). specialize (IH2 _ L2). lia.
  - intros [L | L]; [specialize (IH1 _ L) | specialize (IH2 _ L)]; lia.
  - lia.
  - lia.
Qed.

Lemma lang_max_length (r : regex) (m : string) (n : nat) :
  max_length r = Some n -> lang r m -> String.length m <= n.
Proof.
  revert m n. induction r as [|p|r1 IH1 r2 IH2|r1 IH1 r2 IH2|r1 IH1|];
    cbn [max_length lang]; intros m n.
  - by intros [= <-] ->.
  - by intros [= <-] (c & -> & _).
  - destruct (max_length r1) as [a|]; [| done]. destruct (max_length r2) as [b|]; [| done].
    intros [= <-] (m1 & m2 & -> & L1 & L2). rewrite length_append.
    specialize (IH1 _ _ eq_refl L1). specialize (IH2 _ _ eq_refl L2). lia.
  - destruct (max_length r1) as [a|]; [| done]. destruct (max_length r2) as [b|]; [| done].
    intros [= <-] [L | L];
      [specialize (IH1 _ _ eq_refl L) | specialize (IH2 _ _ eq_refl L)]; lia.
  - done.
  - by intros [= <-] ->.
Qed.

Ltac in_class H :=
  repeat match type of H with
         | (_ || _ = true) => apply orb_true_iff in H as [H | H]
         end;
  first [ discriminate H
        | apply Ascii.eqb_eq in H; subst; reflexivity
        | unfold alnum; rewrite H; rewrite ?orb_true_r; reflexivity ].

Lemma emailRegex_chars : chars_within email_char emailRegex.
Proof.
  cbn [chars_within emailRegex plus lit at_least times]; repeat split; try done;
    intros c H; unfold email_char; cbn [among] in H; unfold alnum in H; in_class H.
Qed.

Lemma phoneRegex_chars : chars_within phone_char phoneRegex.
Proof.
  cbn [chars_within phoneRegex plus lit at_least times range upto opt Nat.sub];
    repeat split; try done;
    intros c H; unfold phone_char; unfold space_or_dash in H; in_class H.
Qed.

Lemma emailRegex_at (m : string) :
  lang emailRegex m -> exists loc rest, m = loc +:+ "@" +:+ rest /\ loc <> "".
Proof.
  unfold emailRegex, plus. cbn [lang lit].
  intros (m0 & m1 & -> & -> & mp & m2 & -> & (mc & ms & -> & (c & -> & _) & _)
          & ma & m3 & -> & (a & e & -> & (d & -> & D) & ->) & _).
  apply Ascii.eqb_eq in D as <-.
  exists (String c "" +:+ ms), m3. split; [| done].
  by rewrite append_nil.
Qed.

Lemma extract_store_info_contacts (storeUrl : value) (html : string) (info : store_info) :
  extract_store_info storeUrl html = Ok info ->
  email info = default "" (first_match html emailRegex)
  /\ phone info = default "" (first_match html phoneRegex).
Proof.
  unfold extract_store_info. cbn zeta.
  match goal with |- context [rbind ?m _] => destruct m as [logo|]; [| done] end.
  cbn [rbind].
  match goal with |- context [rbind ?m _] => destruct m as [favicon|]; [| done] end.
  cbn [rbind]. by intros [= <-].
Qed.

(** X22.  The e-mail address fetchStoreInfo returns is empty or a piece
    of the page as it was received, with a non-empty part before an at
    sign and made only of letters, digits and the characters of the
    pattern: no white space, quote or angle bracket gets into it. *)
Theorem fetchStoreInfo_email_shape (storeUrl : value) (w w' : World) (info : store_info) :
  fetchStoreInfo storeUrl w = (w', Ok info) ->
  email info = ""
  \/ (exists loc rest, email info = loc +:+ "@" +:+ rest /\ loc <> "")
     /\ all_chars email_char (email info) = true
     /\ exists html pre post,
          axios_get storeUrl w = (w', Ok (VStr html))
          /\ html = pre +:+ email info +:+ post.
Proof.
  intros R. apply fetchStoreInfo_cases in R as [-> | (html & E & X)]; [by left |].
  destruct (extract_store_info_contacts _ _ _ X) as [-> _].
  destruct (first_match html emailRegex) as [m|] eqn:M; [| by left]. right.
  apply search_sound in M as (L & pre & post & Hs). cbn [default].
  split; [by apply emailRegex_at |].
  split; [by apply (lang_chars _ _ emailRegex_chars) |].
  by exists html, pre, post.
Qed.

(** X23.  The phone number fetchStoreInfo returns is empty or a piece of
    the page as it was received, of 4 to 27 code units, each a digit,
    white space, a dash, a plus sign or a parenthesis. *)
Theorem fetchStoreInfo_phone_shape (storeUrl : value) (w w' : World) (info : store_info) :
  fetchStoreInfo storeUrl w = (w', Ok info) ->
  phone info = ""
  \/ 4 <= String.length (phone info) <= 27
     /\ all_chars phone_char (phone info) = true
     /\ exists html pre post,
          axios_get storeUrl w = (w', Ok (VStr html))
          /\ html = pre +:+ phone info +:+ post.
Proof.
  intros R. apply fetchStoreInfo_cases in R as [-> | (html & E & X)]; [by left |].
  destruct (extract_store_info_contacts _ _ _ X) as [_ ->].
  destruct (first_match html phoneRegex) as [m|] eqn:M; [| by left]. right.
  apply search_sound in M as (L & pre & post & Hs). cbn [default].
  split.
  { split.
    - exact (lang_min_length phoneRegex m L).
    - exact (lang_max_length phoneRegex m 27 eq_refl L). }
  split; [by apply (lang_chars _ _ phoneRegex_chars) |].
  by exists html, pre, post.
Qed.

End Route.

(** ** The statements at concrete stores *)

Import Fixture.


(** The listing is missing; the all-items view holds two products in
    one store and is missing as well in the other. *)
Lemma fetchProducts_fallback_witness :
  let items := [record [("id", VNum "1")]; record [("id", VNum "2")]] in
  let pages := [(shop +:+ "/collections/all.json", record [("products", VArr items)])] in
  let w1 := [VStr (shop +:+ "/products.json")] in
  let w2 := w1 ++ [VStr (shop +:+ "/collections/all.json")] in
  let e := Error "Request failed with status code 404" in
  serve pages (VStr (shop +:+ "/products.json")) [] = (w1, Throw e)
  /\ fetchProducts Log (serve pages) (VStr shop) [] = (w2, Ok (VArr items))
  /\ serve [] (VStr (shop +:+ "/products.json")) [] = (w1, Throw e)
  /\ fetchProducts Log (serve []) (VStr shop) [] = (w2, Ok (VArr [])).
Proof.
  intros items pages w1 w2 e.
  split; [reflexivity |]. split.
  - apply (proj1 (fetchProducts_fallback Log (serve pages) shop [] w1 e eq_refl)
             w2 (record [("products", VArr items)]) items); reflexivity.
  - split; [reflexivity |].
    apply (proj2 (fetchProducts_fallback Log (serve []) shop [] w1 e eq_refl) w2 e);
      reflexivity.
Defined.

(** Three collections, the detail of the second one missing. *)
Lemma fetchCollections_one_detail_fails_witness :
  let w0 := [VStr (shop +:+ "/collections.json")] in
  let w1 := w0 ++ (VStr <$> detail_urls) in
  let data := record [("collections", VArr [shoes; hats; bags])] in
  let rs := [ Ok (record [("collection", shoes_detail)]);
              Throw not_found;
              Ok (record [("collection", bags_detail)]) ] in
  serve listing_pages (VStr (shop +:+ "/collections.json")) [] = (w0, Ok data)
  /\ get data "collections" = Ok (VArr [shoes; hats; bags])
  /\ Forall2 (fun c url => detail_url (VStr shop) c = Ok url) [shoes; hats; bags] detail_urls
  /\ fetch_each Log (serve listing_pages) detail_urls w0 = (w1, rs)
  /\ rs !! 1 = Some (Throw not_found)
  /\ (forall i, i <> 1 -> i < 3 ->
        exists d detail, rs !! i = Some (Ok d) /\ get d "collection" = Ok (VObj detail))
  /\ exists out,
       fetchCollections Log (serve listing_pages) (parse []) no_load (VStr shop) []
         = (w1, Ok (VArr out))
       /\ length out = 3
       /\ out !! 1 = Some hats
       /\ out !! 0 = Some (object_assign shoes shoes_detail)
       /\ out !! 2 = Some (object_assign bags bags_detail).
Proof.
  intros w0 w1 data rs.
  assert (H1 : serve listing_pages (VStr (shop +:+ "/collections.json")) [] = (w0, Ok data))
    by reflexivity.
  assert (H2 : get data "collections" = Ok (VArr [shoes; hats; bags])) by reflexivity.
  assert (H3 : Forall2 (fun c url => detail_url (VStr shop) c = Ok url)
                 [shoes; hats; bags] detail_urls)
    by (repeat constructor).
  assert (H4 : fetch_each Log (serve listing_pages) detail_urls w0 = (w1, rs)) by reflexivity.
  assert (H5 : rs !! 1 = Some (Throw not_found)) by reflexivity.
  assert (H6 : forall i, i <> 1 -> i < 3 ->
             exists d detail, rs !! i = Some (Ok d) /\ get d "collection" = Ok (VObj detail)).
  { intros [|[|[|i]]] Hne Hlt; try lia.
    - eexists _, _. split; reflexivity.
    - eexists _, _. split; reflexivity. }
  do 6 (split; [assumption |]).
  destruct (fetchCollections_one_detail_fails Log (serve listing_pages) (parse []) no_load
              shop [] w0 w1 data [shoes; hats; bags] detail_urls rs 1 not_found
              H1 H2 H3 H4 H5 H6) as (out & Hrun & Hlen & Hj & Hothers).
  exists out. split; [exact Hrun |]. split; [exact Hlen |]. split; [exact Hj |].
  split.
  - destruct (Hothers 0 _ _ _ ltac:(lia) eq_refl eq_refl eq_refl) as (m & Hm & Ha & _).
    rewrite Hm. f_equal. symmetry. exact Ha.
  - destruct (Hothers 2 _ _ _ ltac:(lia) eq_refl eq_refl eq_refl) as (m & Hm & Ha & _).
    rewrite Hm. f_equal. symmetry. exact Ha.
Defined.


(** The third article of that blog has content and no paragraph. *)
Lemma fetchArticles_no_paragraph_witness :
  let url := shop +:+ "/blogs/" +:+ "news" +:+ "/articles.json" in
  let data := record [("articles", VArr news_articles)] in
  serve article_pages (VStr url) [] = ([VStr url], Ok data)
  /\ get data "articles" = Ok (VArr news_articles)
  /\ Forall (fun a => is_article a = true) news_articles
  /\ news_articles !! 2 = Some (VObj div_article)
  /\ div_article !! "content" = Some (VStr div_markup)
  /\ div_markup <> ""
  /\ select (parse article_docs div_markup) sel_p = []
  /\ exists out a',
       fetchArticles Log (serve article_pages) (parse article_docs) no_load
         (VStr shop) (VStr "news") [] = ([VStr url], Ok (VArr out))
       /\ out !! 2 = Some (VObj a')
       /\ a' !! "summary" = Some (VStr "...")
       /\ a' !! "content" = None.
Proof.
  intros url data.
  assert (H1 : serve article_pages (VStr url) [] = ([VStr url], Ok data)) by reflexivity.
  assert (H2 : get data "articles" = Ok (VArr news_articles)) by reflexivity.
  assert (H3 : Forall (fun a => is_article a = true) news_articles)
    by (repeat constructor).
  assert (H4 : news_articles !! 2 = Some (VObj div_article)) by reflexivity.
  assert (H5 : div_article !! "content" = Some (VStr div_markup)) by reflexivity.
  assert (H6 : div_markup <> "") by discriminate.
  assert (H7 : select (parse article_docs div_markup) sel_p = []) by reflexivity.
  do 7 (split; [assumption |]).
  exact (fetchArticles_no_paragraph Log (serve article_pages) (parse article_docs) no_load
           shop "news" [] [VStr url] data news_articles 2 div_article div_markup
           H1 H2 H3 H4 H5 H6 H7).
Defined.



(** C5, the claim as stated fails: anchors 0 and 2 of the collections
    index page both yield the handle shoes, and the first one is an image
    link without text.  The one entry for shoes is made from anchor 2: its
    title and url are those of anchor 2 and differ from those of the first
    anchor. *)
Lemma first_anchor_without_text_is_not_recorded :
  let anchors := select (parse scraped_docs collections_markup) sel_collection_links in
  let first := image_link "/collections/shoes" in
  let later := anchor "/collections/shoes/" " Shoes " in
  anchors !! 0 = Some first
  /\ anchors !! 2 = Some later
  /\ collection_anchor first = Some ("shoes", "/collections/shoes")
  /\ collection_anchor later = Some ("shoes", "/collections/shoes/")
  /\ exists w1 out e,
       fetchCollections Log (serve scraped_pages) (parse scraped_docs) no_load (VStr shop) []
         = (w1, Ok (VArr out))
       /\ List.filter (has_handle "shoes") out = [e]
       /\ get e "id" = Ok (VStr "2")
       /\ get e "title" = Ok (VStr "Shoes")
       /\ get e "url" = Ok (VStr "https://shop.example/collections/shoes/")
       /\ trim (text first) = ""
       /\ link shop "/collections/shoes" = "https://shop.example/collections/shoes"
       /\ get e "title" <> Ok (VStr (trim (text first)))
       /\ get e "url" <> Ok (VStr (link shop "/collections/shoes")).
Proof.
  intros anchors first later.
  do 4 (split; [reflexivity |]).
  eexists _, _, _. split; [reflexivity |]. split; [reflexivity |].
  do 5 (split; [reflexivity |]).
  split; intros H; vm_compute in H; discriminate.
Qed.

(** The collections index page and the homepage of the store without
    listings: hats is linked twice with text, news is linked by an image,
    by a tag archive and twice with text. *)
Lemma html_fallback_first_visible_anchor_witness :
  let w0 := [VStr (shop +:+ "/collections.json")] in
  let w1 := w0 ++ [VStr (shop +:+ "/collections")] in
  let w0' := [VStr (shop +:+ "/blogs.json")] in
  let w1' := w0' ++ [VStr shop] in
  serve scraped_pages (VStr (shop +:+ "/collections.json")) [] = (w0, Throw not_found)
  /\ serve scraped_pages (VStr (shop +:+ "/collections")) w0 = (w1, Ok (VStr collections_markup))
  /\ serve scraped_pages (VStr (shop +:+ "/blogs.json")) [] = (w0', Throw not_found)
  /\ serve scraped_pages (VStr shop) w0' = (w1', Ok (VStr home_markup))
  /\ (exists out,
        fetchCollections Log (serve scraped_pages) (parse scraped_docs) no_load (VStr shop) []
          = (w1, Ok (VArr out))
        /\ List.filter (has_handle "hats") out
           = [entry "1" "hats" "Hats" (shop +:+ "/collections/hats")]
        /\ List.filter (has_handle "boots") out = [])
  /\ (exists out,
        fetchBlogs Log (serve scraped_pages) (parse scraped_docs) no_load (VStr shop) []
          = (w1', Ok (VArr out))
        /\ List.filter (has_handle "news") out
           = [entry "blog_2" "news" "News" (shop +:+ "/blogs/news")]).
Proof.
  intros w0 w1 w0' w1'.
  do 4 (split; [reflexivity |]).
  destruct (html_fallback_first_visible_anchor Log (serve scraped_pages) (parse scraped_docs)
              no_load shop shop [] w0 w1 [] w0' w1' not_found not_found
              collections_markup home_markup eq_refl eq_refl eq_refl eq_refl)
    as [(out & Hrun & Hwins) (out' & Hrun' & Hwins')].
  split.
  - exists out. split; [exact Hrun |]. split.
    + apply (proj1 (Hwins "hats") 1 (anchor "/collections/hats" "Hats") "/collections/hats");
        [reflexivity | reflexivity | discriminate |].
      intros [|i] el' href' Hi Hel' Ha; [| lia].
      vm_compute in Hel'. injection Hel' as <-. vm_compute in Ha. discriminate.
    + apply (proj2 (Hwins "boots")). intros el href Hel Ha.
      vm_compute in Hel.
      repeat (apply elem_of_cons in Hel as [-> | Hel];
              [vm_compute in Ha; discriminate |]).
      by apply elem_of_nil in Hel.
  - exists out'. split; [exact Hrun' |].
    apply (proj1 (Hwins' "news") 2 (anchor "/blogs/news" "News") "/blogs/news");
      [reflexivity | reflexivity | discriminate |].
    intros [|[|i]] el' href' Hi Hel' Ha; [| | lia].
    + vm_compute in Hel'. injection Hel' as <-. reflexivity.
    + vm_compute in Hel'. injection Hel' as <-. vm_compute in Ha. discriminate.
Defined.

(** On the same pages: shoes is linked first by an image, then with
    text; news likewise. *)
Lemma html_fallback_empty_anchor_passed_over_witness :
  let w0 := [VStr (shop +:+ "/collections.json")] in
  let w1 := w0 ++ [VStr (shop +:+ "/collections")] in
  let w0' := [VStr (shop +:+ "/blogs.json")] in
  let w1' := w0' ++ [VStr shop] in
  serve scraped_pages (VStr (shop +:+ "/collections.json")) [] = (w0, Throw not_found)
  /\ serve scraped_pages (VStr (shop +:+ "/collections")) w0 = (w1, Ok (VStr collections_markup))
  /\ serve scraped_pages (VStr (shop +:+ "/blogs.json")) [] = (w0', Throw not_found)
  /\ serve scraped_pages (VStr shop) w0' = (w1', Ok (VStr home_markup))
  /\ (exists out,
        fetchCollections Log (serve scraped_pages) (parse scraped_docs) no_load (VStr shop) []
          = (w1, Ok (VArr out))
        /\ List.filter (has_handle "shoes") out
           = [entry "2" "shoes" "Shoes" (shop +:+ "/collections/shoes/")])
  /\ (exists out,
        fetchBlogs Log (serve scraped_pages) (parse scraped_docs) no_load (VStr shop) []
          = (w1', Ok (VArr out))
        /\ List.filter (has_handle "news") out
           = [entry "blog_2" "news" "News" (shop +:+ "/blogs/news")]).
Proof.
  intros w0 w1 w0' w1'.
  do 4 (split; [reflexivity |]).
  destruct (html_fallback_empty_anchor_passed_over Log (serve scraped_pages)
              (parse scraped_docs) no_load shop shop [] w0 w1 [] w0' w1' not_found not_found
              collections_markup home_markup eq_refl eq_refl eq_refl eq_refl)
    as [(out & Hrun & Hover) (out' & Hrun' & Hover')].
  split.
  - exists out. split; [exact Hrun |].
    apply (Hover "shoes" 0 2 (image_link "/collections/shoes")
             (anchor "/collections/shoes/" " Shoes ")
             "/collections/shoes" "/collections/shoes/");
      [lia | reflexivity | reflexivity | reflexivity | intros; lia
       | reflexivity | reflexivity | discriminate |].
    intros k el href Hk Hel Ha. assert (k = 1) as -> by lia.
    vm_compute in Hel. injection Hel as <-. vm_compute in Ha. discriminate.
  - exists out'. split; [exact Hrun' |].
    apply (Hover' "news" 0 2 (image_link "/blogs/news") (anchor "/blogs/news" "News")
             "/blogs/news" "/blogs/news");
      [lia | reflexivity | reflexivity | reflexivity | intros; lia
       | reflexivity | reflexivity | discriminate |].
    intros k el href Hk Hel Ha. assert (k = 1) as -> by lia.
    vm_compute in Hel. injection Hel as <-. vm_compute in Ha. discriminate.
Defined.

(** C6.  The collections index page links all, all-shoes and hats.  The
    href of all-shoes contains /collections/all, so the anchor is skipped
    like the catch-all one, although its handle is all-shoes; only hats is
    returned. *)
Theorem handles_starting_with_all_are_skipped :
  collection_handle "/collections/all-shoes" = Ok "all-shoes"
  /\ includes "/collections/all-shoes" "/collections/all" = true
  /\ fetchCollections Log (serve all_pages) (parse all_docs) no_load (VStr shop) []
     = ([VStr (shop +:+ "/collections.json"); VStr (shop +:+ "/collections")],
        Ok (VArr [entry "2" "hats" "Hats" (shop +:+ "/collections/hats")])).
Proof. repeat split; reflexivity. Qed.

(** A store with two blogs and nothing else. *)
Lemma handler_articles_flattened_witness :
  let get_ := serve blog_pages in
  let w1 := [VStr shop] in
  let w2 := w1 ++ [VStr (shop +:+ "/products.json"); VStr (shop +:+ "/collections/all.json")] in
  let w3 := w2 ++ [VStr (shop +:+ "/collections.json"); VStr (shop +:+ "/collections")] in
  let w4 := w3 ++ [VStr (shop +:+ "/blogs.json")] in
  let w5 := w4 ++ [VStr (shop +:+ "/blogs/news/articles.json");
                   VStr (shop +:+ "/blogs/tips/articles.json")] in
  method (post shop) = "POST"
  /\ get (body (post shop)) "storeUrl" = Ok (VStr shop)
  /\ truthy (VStr shop) = true
  /\ fetchStoreInfo Log get_ (parse blog_docs) (VStr shop) [] = (w1, Ok unknown_store)
  /\ fetchProducts Log get_ (VStr shop) w1 = (w2, Ok (VArr []))
  /\ fetchCollections Log get_ (parse blog_docs) no_load (VStr shop) w2 = (w3, Ok (VArr []))
  /\ fetchBlogs Log get_ (parse blog_docs) no_load (VStr shop) w3
     = (w4, Ok (VArr (VObj <$> [news; tips])))
  /\ articles_per_blog Log get_ (parse blog_docs) no_load (VStr shop) (VObj <$> [news; tips]) w4
     = (w5, Ok (VArr <$> [news_list; tips_list]))
  /\ handler Log get_ (parse blog_docs) no_load (post shop) [] =
     (w5, Ok (Scraped {| products := VArr [];
                         collections := VArr [];
                         blogs := VArr [ VObj (<["articles" := VArr news_list]> news);
                                         VObj (<["articles" := VArr tips_list]> tips) ];
                         articles := news_list ++ tips_list;
                         storeInfo := unknown_store |})).
Proof.
  intros get_ w1 w2 w3 w4 w5.
  do 8 (split; [reflexivity |]).
  exact (proj1 (handler_articles_flattened Log get_ (parse blog_docs) no_load
                  (post shop) (VStr shop) [] w1 w2 w3 w4 w5 unknown_store (VArr []) (VArr [])
                  [news; tips] [news_list; tips_list]
                  eq_refl eq_refl eq_refl eq_refl eq_refl eq_refl eq_refl eq_refl)).
Defined.

(** ** Further statements at concrete stores *)

(** The listing is answered with a body that has no products. *)
Lemma fetchProducts_listing_answered_witness :
  let data := record [("errors", VStr "Not Found")] in
  let pages := [(shop +:+ "/products.json", data)] in
  let w1 := [VStr (shop +:+ "/products.json")] in
  serve pages (VStr (shop +:+ "/products.json")) [] = (w1, Ok data)
  /\ fetchProducts Log (serve pages) (VStr shop) [] = (w1, Ok (VArr [])).
Proof.
  intros data pages w1. split; [reflexivity |].
  destruct (fetchProducts_listing_answered Log (serve pages) shop [] w1 data eq_refl)
    as (products & P & R).
  rewrite R. vm_compute in P. injection P as <-. reflexivity.
Defined.

(** The blog list is an object keyed by handle. *)
Lemma fetchBlogs_listing_answered_witness :
  let w1 := [VStr (shop +:+ "/blogs.json")] in
  serve keyed_pages (VStr (shop +:+ "/blogs.json")) [] = (w1, Ok (record [("blogs", keyed_blogs)]))
  /\ fetchBlogs Log (serve keyed_pages) (parse []) no_load (VStr shop) [] = (w1, Ok keyed_blogs).
Proof.
  intros w1. split; [reflexivity |].
  destruct (fetchBlogs_listing_answered Log (serve keyed_pages) (parse []) no_load
              shop [] w1 _ eq_refl) as (blogs & P & R).
  rewrite R. vm_compute in P. injection P as <-. reflexivity.
Defined.

(** The collections field is null. *)
Lemma fetchCollections_listing_without_collections_witness :
  let data := record [("collections", VNull)] in
  let pages := [(shop +:+ "/collections.json", data)] in
  let w0 := [VStr (shop +:+ "/collections.json")] in
  serve pages (VStr (shop +:+ "/collections.json")) [] = (w0, Ok data)
  /\ and_get data "collections" = Ok VNull
  /\ truthy VNull = false
  /\ fetchCollections Log (serve pages) (parse []) no_load (VStr shop) [] = (w0, Ok (VArr [])).
Proof.
  intros data pages w0. do 3 (split; [reflexivity |]).
  exact (fetchCollections_listing_without_collections Log (serve pages) (parse []) no_load
           shop [] w0 data VNull eq_refl eq_refl eq_refl).
Defined.


(** The second entry of the listing is null; the collections page links
    to three collections, two of which the scan skips. *)
Lemma fetchCollections_unusable_entry_falls_back_witness :
  let data := record [("collections", VArr [shoes; VNull; bags])] in
  let urls := [shop +:+ "/collections/shoes.json"] in
  let w0 := [VStr (shop +:+ "/collections.json")] in
  let w1 := w0 ++ (VStr <$> urls) in
  let w2 := w1 ++ [VStr (shop +:+ "/collections")] in
  serve holed_pages (VStr (shop +:+ "/collections.json")) [] = (w0, Ok data)
  /\ get data "collections" = Ok (VArr ([shoes] ++ VNull :: [bags]))
  /\ Forall2 (fun c url => detail_url (VStr shop) c = Ok url) [shoes] urls
  /\ fetch_each Log (serve holed_pages) urls w0
     = (w1, [Ok (record [("collection", shoes_detail)])])
  /\ detail_url (VStr shop) VNull = Throw TypeError
  /\ serve holed_pages (VStr (shop +:+ "/collections")) w1 = (w2, Ok (VStr all_markup))
  /\ fetchCollections Log (serve holed_pages) (parse all_docs) no_load (VStr shop) []
     = (w2, Ok (VArr [entry "2" "hats" "Hats" (shop +:+ "/collections/hats")])).
Proof.
  intros data urls w0 w1 w2.
  assert (H3 : Forall2 (fun c url => detail_url (VStr shop) c = Ok url) [shoes] urls)
    by (repeat constructor).
  do 2 (split; [reflexivity |]). split; [exact H3 |]. do 3 (split; [reflexivity |]).
  rewrite (fetchCollections_unusable_entry_falls_back Log (serve holed_pages) (parse all_docs)
             no_load shop [] w0 w1 w2 data VNull [shoes] [bags] urls _ TypeError all_markup
             eq_refl eq_refl H3 eq_refl eq_refl eq_refl).
  reflexivity.
Defined.

(** The second article of the list is null. *)
Lemma fetchArticles_unusable_entry_empties_witness :
  let data := record [("articles", VArr [VObj bare_article; VNull; VObj long_article])] in
  let pages := [(shop +:+ "/blogs/news/articles.json", data)] in
  let w' := [VStr (shop +:+ "/blogs/news/articles.json")] in
  serve pages (VStr (shop +:+ "/blogs/news/articles.json")) [] = (w', Ok data)
  /\ get data "articles" = Ok (VArr ([VObj bare_article] ++ VNull :: [VObj long_article]))
  /\ Forall (fun a => is_article a = true) [VObj bare_article]
  /\ summarize (parse article_docs) no_load VNull = Throw TypeError
  /\ fetchArticles Log (serve pages) (parse article_docs) no_load (VStr shop) (VStr "news") []
     = (w', Ok (VArr [])).
Proof.
  intros data pages w'.
  assert (H3 : Forall (fun a => is_article a = true) [VObj bare_article])
    by (repeat constructor).
  do 2 (split; [reflexivity |]). split; [exact H3 |]. split; [reflexivity |].
  exact (fetchArticles_unusable_entry_empties Log (serve pages) (parse article_docs) no_load
           shop "news" [] w' data VNull [VObj bare_article] [VObj long_article] TypeError
           eq_refl eq_refl H3 eq_refl).
Defined.

(** The articles of the blog are not served. *)
Lemma fetchArticles_nothing_to_return_witness :
  let w' := [VStr (shop +:+ "/blogs/news/articles.json")] in
  serve [] (VStr (shop +:+ "/blogs/news/articles.json")) [] = (w', Throw not_found)
  /\ fetchArticles Log (serve []) (parse []) no_load (VStr shop) (VStr "news") []
     = (w', Ok (VArr [])).
Proof.
  intros w'. split; [reflexivity |].
  exact (fetchArticles_nothing_to_return Log (serve []) (parse []) no_load
           shop "news" [] w' (Throw not_found) eq_refl I).
Defined.

(** The blog list is an object keyed by handle. *)
Lemma handler_blogs_not_iterable_witness :
  let get_ := serve keyed_pages in
  let w1 := [VStr shop] in
  let w2 := w1 ++ [VStr (shop +:+ "/products.json"); VStr (shop +:+ "/collections/all.json")] in
  let w3 := w2 ++ [VStr (shop +:+ "/collections.json"); VStr (shop +:+ "/collections")] in
  let w4 := w3 ++ [VStr (shop +:+ "/blogs.json")] in
  method (post shop) = "POST"
  /\ get (body (post shop)) "storeUrl" = Ok (VStr shop)
  /\ truthy (VStr shop) = true
  /\ fetchStoreInfo Log get_ (parse []) (VStr shop) [] = (w1, Ok unknown_store)
  /\ fetchProducts Log get_ (VStr shop) w1 = (w2, Ok (VArr []))
  /\ fetchCollections Log get_ (parse []) no_load (VStr shop) w2 = (w3, Ok (VArr []))
  /\ fetchBlogs Log get_ (parse []) no_load (VStr shop) w3 = (w4, Ok keyed_blogs)
  /\ iterate keyed_blogs = Throw TypeError
  /\ handler Log get_ (parse []) no_load (post shop) [] = (w4, Ok (ScrapeFailed TypeError)).
Proof.
  intros get_ w1 w2 w3 w4.
  do 8 (split; [reflexivity |]).
  exact (handler_blogs_not_iterable Log get_ (parse []) no_load (post shop) (VStr shop)
           [] w1 w2 w3 w4 unknown_store (VArr []) (VArr []) keyed_blogs TypeError
           eq_refl eq_refl eq_refl eq_refl eq_refl eq_refl eq_refl eq_refl).
Defined.

(** The second entry of the blog list is a number. *)
Lemma handler_blog_not_an_object_witness :
  let get_ := serve mixed_pages in
  let w1 := [VStr shop] in
  let w2 := w1 ++ [VStr (shop +:+ "/products.json"); VStr (shop +:+ "/collections/all.json")] in
  let w3 := w2 ++ [VStr (shop +:+ "/collections.json"); VStr (shop +:+ "/collections")] in
  let w4 := w3 ++ [VStr (shop +:+ "/blogs.json")] in
  let w5 := w4 ++ [VStr (shop +:+ "/blogs/news/articles.json")] in
  method (post shop) = "POST"
  /\ get (body (post shop)) "storeUrl" = Ok (VStr shop)
  /\ truthy (VStr shop) = true
  /\ fetchStoreInfo Log get_ (parse blog_docs) (VStr shop) [] = (w1, Ok unknown_store)
  /\ fetchProducts Log get_ (VStr shop) w1 = (w2, Ok (VArr []))
  /\ fetchCollections Log get_ (parse blog_docs) no_load (VStr shop) w2 = (w3, Ok (VArr []))
  /\ fetchBlogs Log get_ (parse blog_docs) no_load (VStr shop) w3
     = (w4, Ok (VArr ((VObj <$> [news]) ++ VNum "7" :: [VObj tips])))
  /\ articles_per_blog Log get_ (parse blog_docs) no_load (VStr shop) (VObj <$> [news]) w4
     = (w5, Ok (VArr <$> [news_list]))
  /\ takes_properties (VNum "7") = false
  /\ exists w6,
       handler Log get_ (parse blog_docs) no_load (post shop) []
       = (w6, Ok (ScrapeFailed TypeError)).
Proof.
  intros get_ w1 w2 w3 w4 w5.
  do 9 (split; [reflexivity |]).
  exact (handler_blog_not_an_object Log get_ (parse blog_docs) no_load (post shop) (VStr shop)
           [] w1 w2 w3 w4 w5 unknown_store (VArr []) (VArr []) [news] [news_list]
           (VNum "7") [VObj tips]
           eq_refl eq_refl eq_refl eq_refl eq_refl eq_refl eq_refl eq_refl eq_refl).
Defined.

(** A GET request, a POST request without a body, and a POST request
    with an empty storeUrl. *)
Lemma handler_outcomes_witness :
  let get_request := {| method := "GET"; body := VNull |} in
  let no_body := {| method := "POST"; body := VNull |} in
  method get_request <> "POST"
  /\ handler Log (serve []) (parse []) no_load get_request [] = ([], Ok MethodNotAllowed)
  /\ method no_body = "POST"
  /\ handler Log (serve []) (parse []) no_load no_body [] = ([], Throw TypeError)
  /\ handler Log (serve []) (parse []) no_load (post "") [] = ([], Ok StoreUrlRequired).
Proof.
  intros get_request no_body.
  assert (H : method get_request <> "POST") by discriminate.
  split; [exact H |].
  split; [exact (proj1 (handler_outcomes Log (serve []) (parse []) no_load get_request []) H) |].
  split; [reflexivity |].
  split; [exact (proj2 (handler_outcomes Log (serve []) (parse []) no_load no_body []) eq_refl) |].
  exact (proj2 (handler_outcomes Log (serve []) (parse []) no_load (post "") []) eq_refl).
Defined.

(** Neither listing is served; the collections page and the homepage
    carry the links. *)
Lemma html_fallback_entries_in_scan_order_witness :
  let w0 := [VStr (shop +:+ "/collections.json")] in
  let w1 := w0 ++ [VStr (shop +:+ "/collections")] in
  let w0' := [VStr (shop +:+ "/blogs.json")] in
  let w1' := w0' ++ [VStr shop] in
  serve scraped_pages (VStr (shop +:+ "/collections.json")) [] = (w0, Throw not_found)
  /\ serve scraped_pages (VStr (shop +:+ "/collections")) w0 = (w1, Ok (VStr collections_markup))
  /\ serve scraped_pages (VStr (shop +:+ "/blogs.json")) [] = (w0', Throw not_found)
  /\ serve scraped_pages (VStr shop) w0' = (w1', Ok (VStr home_markup))
  /\ (exists out,
        fetchCollections Log (serve scraped_pages) (parse scraped_docs) no_load (VStr shop) []
          = (w1, Ok (VArr out))
        /\ from_anchors decimal shop collection_anchor
             (select (parse scraped_docs collections_markup) sel_collection_links) out)
  /\ (exists out,
        fetchBlogs Log (serve scraped_pages) (parse scraped_docs) no_load (VStr shop) []
          = (w1', Ok (VArr out))
        /\ from_anchors blog_id shop blog_anchor
             (select (parse scraped_docs home_markup) sel_blog_links) out).
Proof.
  intros w0 w1 w0' w1'.
  do 4 (split; [reflexivity |]).
  destruct (html_fallback_entries_in_scan_order Log (serve scraped_pages) (parse scraped_docs)
              no_load shop shop [] w0 w1 [] w0' w1' not_found not_found
              collections_markup home_markup eq_refl eq_refl eq_refl eq_refl)
    as (Hc & Hb & _).
  split; [exact Hc | exact Hb].
Defined.

(** On the same pages, where hats and shoes are each linked twice. *)
Lemma html_fallback_handles_distinct_witness :
  let w0 := [VStr (shop +:+ "/collections.json")] in
  let w1 := w0 ++ [VStr (shop +:+ "/collections")] in
  let w0' := [VStr (shop +:+ "/blogs.json")] in
  let w1' := w0' ++ [VStr shop] in
  serve scraped_pages (VStr (shop +:+ "/collections.json")) [] = (w0, Throw not_found)
  /\ serve scraped_pages (VStr (shop +:+ "/collections")) w0 = (w1, Ok (VStr collections_markup))
  /\ serve scraped_pages (VStr (shop +:+ "/blogs.json")) [] = (w0', Throw not_found)
  /\ serve scraped_pages (VStr shop) w0' = (w1', Ok (VStr home_markup))
  /\ (exists out,
        fetchCollections Log (serve scraped_pages) (parse scraped_docs) no_load (VStr shop) []
          = (w1, Ok (VArr out))
        /\ NoDup (omap handle_of out)
        /\ length (omap handle_of out) = length out)
  /\ (exists out,
        fetchBlogs Log (serve scraped_pages) (parse scraped_docs) no_load (VStr shop) []
          = (w1', Ok (VArr out))
        /\ NoDup (omap handle_of out)
        /\ length (omap handle_of out) = length out).
Proof.
  intros w0 w1 w0' w1'.
  do 4 (split; [reflexivity |]).
  exact (html_fallback_handles_distinct Log (serve scraped_pages) (parse scraped_docs)
           no_load shop shop [] w0 w1 [] w0' w1' not_found not_found
           collections_markup home_markup eq_refl eq_refl eq_refl eq_refl).
Defined.

(** The homepage links to www.facebook.com with the https scheme. *)
Lemma fetchStoreInfo_social_links_shape_witness :
  exists info,
    fetchStoreInfo Log (serve social_pages) (parse social_docs) (VStr shop) []
      = ([VStr shop], Ok info)
    /\ socialLinks info !! "facebook" = Some "https://facebook.com/mystore"
    /\ exists domain path,
         ("facebook", domain) ∈ social_domains
         /\ "https://facebook.com/mystore" = "https://" +:+ domain +:+ path
         /\ path <> ""
         /\ take_while not_delim path = path.
Proof.
  eexists. split; [reflexivity |]. split; [reflexivity |].
  exact (fetchStoreInfo_social_links_shape Log (serve social_pages) (parse social_docs)
           (VStr shop) [] [VStr shop] _ "facebook" "https://facebook.com/mystore"
           eq_refl eq_refl).
Defined.

(** The first article of the blog has a paragraph of more than 200 code
    units. *)
Lemma fetchArticles_summary_bounded_witness :
  let data := record [("articles", VArr news_articles)] in
  let w' := [VStr (shop +:+ "/blogs/news/articles.json")] in
  serve article_pages (VStr (shop +:+ "/blogs/news/articles.json")) [] = (w', Ok data)
  /\ get data "articles" = Ok (VArr news_articles)
  /\ Forall (fun a => is_article a = true) news_articles
  /\ news_articles !! 0 = Some (VObj long_article)
  /\ long_article !! "content" = Some (VStr long_markup)
  /\ long_markup <> ""
  /\ exists out a' t,
       fetchArticles Log (serve article_pages) (parse article_docs) no_load
         (VStr shop) (VStr "news") [] = (w', Ok (VArr out))
       /\ out !! 0 = Some (VObj a')
       /\ a' !! "content" = None
       /\ a' !! "summary" = Some (VStr (t +:+ "..."))
       /\ String.length t <= 200
       /\ startsWith (trim (first_paragraph (parse article_docs long_markup))) t = true.
Proof.
  intros data w'.
  assert (H3 : Forall (fun a => is_article a = true) news_articles) by (repeat constructor).
  assert (H6 : long_markup <> "") by discriminate.
  do 2 (split; [reflexivity |]). split; [exact H3 |]. do 2 (split; [reflexivity |]).
  split; [exact H6 |].
  destruct (fetchArticles_summary_bounded Log (serve article_pages) (parse article_docs)
              no_load shop "news" [] w' data news_articles 0 long_article long_markup
              eq_refl eq_refl H3 eq_refl eq_refl H6)
    as (out & a' & t & Hrun & Hout & Hc & Hs & Hl & Hp & _).
  exists out, a', t. do 5 (split; [assumption |]). exact Hp.
Defined.


(** The title has a vertical bar in it. *)
Lemma fetchStoreInfo_name_from_title_witness :
  let w1 := [VStr shop] in
  serve front_pages (VStr shop) [] = (w1, Ok (VStr front_markup))
  /\ text_of (select (parse front_docs front_markup) sel_title)
     = "My Store " +:+ "| Shoes and hats"
  /\ includes "My Store " "|" = false
  /\ startsWith "| Shoes and hats" "|" = true
  /\ exists info,
       fetchStoreInfo Log (serve front_pages) (parse front_docs) (VStr shop) []
         = (w1, Ok info)
       /\ name info = "My Store".
Proof.
  intros w1. do 4 (split; [reflexivity |]).
  exact (fetchStoreInfo_name_from_title Log (serve front_pages) (parse front_docs)
           shop front_markup "My Store " "| Shoes and hats" [] w1
           eq_refl eq_refl eq_refl (or_intror eq_refl)).
Defined.


(** The homepage names an address to write to and a number to call. *)
Lemma fetchStoreInfo_email_shape_witness :
  exists info,
    fetchStoreInfo Log (serve contact_pages) (parse contact_docs) (VStr shop) []
      = ([VStr shop], Ok info)
    /\ email info = "hello@shop.example"
    /\ all_chars email_char (email info) = true.
Proof.
  eexists. split; [reflexivity |]. split; [reflexivity |].
  match goal with
  | |- all_chars _ (email ?i) = true =>
      destruct (fetchStoreInfo_email_shape Log (serve contact_pages) (parse contact_docs)
                  (VStr shop) [] [VStr shop] i eq_refl) as [H | (_ & H & _)]
  end; [discriminate H | exact H].
Defined.

Lemma fetchStoreInfo_phone_shape_witness :
  exists info,
    fetchStoreInfo Log (serve contact_pages) (parse contact_docs) (VStr shop) []
      = ([VStr shop], Ok info)
    /\ phone info = "+1 555-123-4567"
    /\ 4 <= String.length (phone info) <= 27
    /\ all_chars phone_char (phone info) = true.
Proof.
  eexists. split; [reflexivity |]. split; [reflexivity |].
  match goal with
  | |- _ /\ all_chars _ (phone ?i) = true =>
      destruct (fetchStoreInfo_phone_shape Log (serve contact_pages) (parse contact_docs)
                  (VStr shop) [] [VStr shop] i eq_refl) as [H | (H1 & H2 & _)]
  end; [discriminate H | split; [exact H1 | exact H2]].
Defined.
